(** * Migrate: the MySQL to MongoDB migration pipeline of [src/migrate.ts]

    The class [Migrate] has four public operations, called in this order by
    its driver: [retrieveModels], [retrieveMysqlData], [generateMongoSchemas]
    and [populateMongo].  They communicate through two private fields
    ([models], [modelschemas]) and through two directories on disk
    ([../data-files/] and [../mongo-models/]).

    The embedding is shallow: every operation is a function on an explicit
    world state in a small state-and-exception monad; [throw] and
    [try]/[catch] are written out, so that the state left behind by an
    operation that throws can be inspected.

    The calls of [fs] whose name ends in [Sync] act on the disk at once.
    The write streams of [generateMongoSchemas] do not: the source creates
    a stream, hands it three chunks and goes on, without waiting for the
    file to be opened or for a chunk to be written.  The world therefore
    keeps the streams that were created, with their chunks, next to the
    directory as the synchronous calls have left it, and a step relation
    says how streams reach the disk afterwards, in any interleaving. *)

From Stdlib Require Import Ascii String.
From stdpp Require Import base option list gmap strings pretty.

#[local] Arguments String.append !_ _ / : simpl nomatch.

(** ** JavaScript string primitives used by the source

    A JavaScript string is modelled by a Rocq [string], one [ascii] per code
    unit.  [toUpperCase] follows the ASCII case table; the Unicode case
    tables above code unit 127 are not modelled (such code units are left as
    they are). *)

Module JsString.

Definition LF : string := String (ascii_of_nat 10) EmptyString.

Fixpoint indent (n : nat) : string :=
  match n with
  | O => EmptyString
  | S k => String " " (indent k)
  end.

Definition is_lower (c : ascii) : bool :=
  (97 <=? nat_of_ascii c)%nat && (nat_of_ascii c <=? 122)%nat.

Definition upper_char (c : ascii) : ascii :=
  if is_lower c then ascii_of_nat (nat_of_ascii c - 32) else c.

(** [s.toUpperCase()] *)
Fixpoint toUpperCase (s : string) : string :=
  match s with
  | EmptyString => EmptyString
  | String c r => String (upper_char c) (toUpperCase r)
  end.

(** [s.indexOf(c) !== -1] for a one-character needle [c] *)
Fixpoint includes (c : ascii) (s : string) : bool :=
  match s with
  | EmptyString => false
  | String a r => if Ascii.eqb a c then true else includes c r
  end.

(** [s.split(sep)] for a one-character separator: never the empty array *)
Fixpoint split (sep : ascii) (s : string) : list string :=
  match s with
  | EmptyString => [EmptyString]
  | String a r =>
      if Ascii.eqb a sep then EmptyString :: split sep r
      else match split sep r with
           | [] => [String a EmptyString]
           | seg :: segs => String a seg :: segs
           end
  end.

(** [arr.join('')] *)
Definition join (segs : list string) : string :=
  fold_right String.append EmptyString segs.

(** [s.split(sep)[0]] *)
Definition first_segment (sep : ascii) (s : string) : string :=
  match split sep s with
  | [] => EmptyString
  | seg :: _ => seg
  end.

(** [s.slice(0, 1)] *)
Definition slice_0_1 (s : string) : string :=
  match s with
  | EmptyString => EmptyString
  | String a _ => String a EmptyString
  end.

(** [s.slice(1)] *)
Definition slice_1 (s : string) : string :=
  match s with
  | EmptyString => EmptyString
  | String _ r => r
  end.

(** [hay.indexOf(needle) !== -1] for a string needle *)
Fixpoint is_substring (needle hay : string) : bool :=
  String.prefix needle hay ||
  match hay with
  | EmptyString => false
  | String _ r => is_substring needle r
  end.

End JsString.

Import JsString.

(** ** Data *)

(** One row of the answer to [describe <table>]. [Default] is [None] when the
    driver reports [null]. *)
Record Column := mkColumn {
  Field : string;
  Type_ : string;
  Null : string;
  Default : option string
}.

(** Values that [JSON.stringify] takes and [JSON.parse] gives. *)
#[local] Unset Elimination Schemes.
Inductive json :=
| JNull
| JNum (n : Z)
| JStr (s : string)
| JArr (items : list json)
| JObj (members : list (string * json)).
#[local] Set Elimination Schemes.

(** A promise returned by [database.query], once settled. *)
Inductive DbResult (A : Type) :=
| Resolved (answer : A)
| Rejected (reason : string).
Arguments Resolved {A} answer.
Arguments Rejected {A} reason.

(** The collaborator [./configs/dbconfig]: [database.query] applied to the
    text of a statement.  The source uses its answer in three shapes, one
    field for each: the first column of every row ([show full tables]), the
    row set as it is ([select]), and the column descriptions ([describe]). *)
Record Database := mkDatabase {
  query_tables : string -> DbResult (list string);
  query_rows : string -> DbResult json;
  query_describe : string -> DbResult (list Column)
}.

(** An entry of a directory: a regular file with its text, or a
    sub-directory (which [unlinkSync] and a write refuse). *)
Inductive node :=
| File (content : string)
| Directory.

Inductive errno := ENOENT | EEXIST | EISDIR.

(** What the operations throw. [QueryError] is the rejection of
    [database.query], passed on as it is. *)
Inductive exn :=
| Error (message : string)
| FsError (code : errno) (entry : string)
| QueryError (reason : string)
| SyntaxError.

Inductive logline :=
| LogFound (count : nat)
| LogData (modeldata : json).

(** An [fs.WriteStream] that the source has created on the schema
    directory: the entry it was created for and the chunks handed to its
    [write], in order.  The source neither awaits a stream nor ends it nor
    listens to its events.  [createWriteStream] and [write] return before
    anything is on the disk: the file is opened and the chunks are written
    later, while the program goes on (see the landing of streams below). *)
Record stream := mkStream {
  stream_path : string;
  stream_chunks : list string
}.

(** The instance fields and everything the operations can touch.
    [datafiles] and [mongomodels] are the contents of the directories
    [this.datafilesdir] and [this.modelsdirectory] as the synchronous calls
    have left them, [None] while the directory does not exist;
    [modelschemas] is the JavaScript [Map], in insertion order;
    [collections] is the target store; [streams] are the write streams
    created on the schema directory, in the order of their creation, with
    the chunks handed to them.  What the streams have written by a given
    moment is not in [mongomodels]: the schema directory as it is found on
    the disk is given by the landing of streams below. *)
Record World := mkWorld {
  models : option (list string);
  modelschemas : list (string * string);
  datafiles : option (gmap string node);
  mongomodels : option (gmap string node);
  console : list logline;
  collections : gmap string (list json);
  streams : list stream
}.

(** [new Migrate()] in front of the given disk and store. *)
Definition constructor (data mods : option (gmap string node))
    (store : gmap string (list json)) : World :=
  mkWorld None [] data mods [] store [].

Definition with_models (v : option (list string)) (w : World) : World :=
  mkWorld v (modelschemas w) (datafiles w) (mongomodels w) (console w) (collections w)
    (streams w).
Definition with_modelschemas (v : list (string * string)) (w : World) : World :=
  mkWorld (models w) v (datafiles w) (mongomodels w) (console w) (collections w)
    (streams w).
Definition with_datafiles (v : option (gmap string node)) (w : World) : World :=
  mkWorld (models w) (modelschemas w) v (mongomodels w) (console w) (collections w)
    (streams w).
Definition with_mongomodels (v : option (gmap string node)) (w : World) : World :=
  mkWorld (models w) (modelschemas w) (datafiles w) v (console w) (collections w)
    (streams w).
Definition with_console (v : list logline) (w : World) : World :=
  mkWorld (models w) (modelschemas w) (datafiles w) (mongomodels w) v (collections w)
    (streams w).
Definition with_streams (v : list stream) (w : World) : World :=
  mkWorld (models w) (modelschemas w) (datafiles w) (mongomodels w) (console w)
    (collections w) v.

(** ** The monad of effects: state and exceptions *)

Inductive Completion (A : Type) :=
| Normal (value : A)
| Throw (e : exn).
Arguments Normal {A} value.
Arguments Throw {A} e.

Definition Eff (S A : Type) : Type := S -> Completion A * S.

#[global] Instance Eff_ret {S} : MRet (Eff S) := fun A a s => (Normal a, s).
#[global] Instance Eff_bind {S} : MBind (Eff S) := fun A B k m s =>
  match m s with
  | (Normal a, s') => k a s'
  | (Throw e, s') => (Throw e, s')
  end.

Definition throw {S A} (e : exn) : Eff S A := fun s => (Throw e, s).
Definition gets {S A} (f : S -> A) : Eff S A := fun s => (Normal (f s), s).
Definition modify {S} (f : S -> S) : Eff S unit := fun s => (Normal tt, f s).

(** [try { body } catch { handler }]: what [body] did before it threw stays. *)
Definition try_catch {S A} (body handler : Eff S A) : Eff S A := fun s =>
  match body s with
  | (Normal a, s') => (Normal a, s')
  | (Throw _, s') => handler s'
  end.

(** [for (const x of xs) { body x }] *)
Fixpoint for_of {S A} (xs : list A) (body : A -> Eff S unit) : Eff S unit :=
  match xs with
  | [] => mret tt
  | x :: rest => body x ;; for_of rest body
  end.

(** [await database.query(...)]: a rejection is thrown. *)
Definition await {S A} (p : DbResult A) : Eff S A :=
  match p with
  | Resolved a => mret a
  | Rejected r => throw (QueryError r)
  end.

(** ** The [fs] calls of the source, on one directory

    The state is the directory's content; an entry name is the text the
    source appends to the directory's path.  [readdirSync] lists the entries
    in the order in which the map enumerates them; the properties below hold
    for whatever order a listing has. *)

Abbreviation dir := (option (gmap string node)).

Definition readdirSync : Eff dir (list string) := fun d =>
  match d with
  | None => (Throw (FsError ENOENT EmptyString), d)
  | Some m => (Normal (map_to_list m).*1, d)
  end.

Definition unlinkSync (name : string) : Eff dir unit := fun d =>
  match d with
  | None => (Throw (FsError ENOENT name), d)
  | Some m =>
      match m !! name with
      | None => (Throw (FsError ENOENT name), d)
      | Some Directory => (Throw (FsError EISDIR name), d)
      | Some (File _) => (Normal tt, Some (delete name m))
      end
  end.

Definition mkdirSync : Eff dir unit := fun d =>
  match d with
  | None => (Normal tt, Some ∅)
  | Some _ => (Throw (FsError EEXIST EmptyString), d)
  end.

Definition writeFileSync (name content : string) : Eff dir unit := fun d =>
  match d with
  | None => (Throw (FsError ENOENT name), d)
  | Some m =>
      match m !! name with
      | Some Directory => (Throw (FsError EISDIR name), d)
      | _ => (Normal tt, Some (<[name := File content]> m))
      end
  end.

Definition readFileSync (name : string) : Eff dir string := fun d =>
  match d with
  | None => (Throw (FsError ENOENT name), d)
  | Some m =>
      match m !! name with
      | None => (Throw (FsError ENOENT name), d)
      | Some Directory => (Throw (FsError EISDIR name), d)
      | Some (File content) => (Normal content, d)
      end
  end.

(** Run an [fs] call on [this.datafilesdir], on [this.modelsdirectory]. *)
Definition in_datafiles {A} (op : Eff dir A) : Eff World A := fun w =>
  let (r, d) := op (datafiles w) in (r, with_datafiles d w).
Definition in_mongomodels {A} (op : Eff dir A) : Eff World A := fun w =>
  let (r, d) := op (mongomodels w) in (r, with_mongomodels d w).

(** [fs.createWriteStream(path)] on the schema directory.  The call returns
    the stream at once and never throws: the file is opened later, and a
    failure to open it is reported in an event of the stream.  The value
    returned stands for the stream: its rank among the streams created. *)
Definition createWriteStream (name : string) : Eff World nat := fun w =>
  (Normal (length (streams w)), with_streams (streams w ++ [mkStream name []]) w).

(** [model.write(chunk)]: the chunk is queued on the stream. *)
Definition stream_write (model : nat) (chunk : string) : Eff World unit :=
  modify (fun w =>
    with_streams
      (alter (fun s => mkStream (stream_path s) (stream_chunks s ++ [chunk])) model
         (streams w)) w).

Definition console_log (l : logline) : Eff World unit :=
  modify (fun w => with_console (console w ++ [l]) w).

(** [Map.prototype.set]: an existing key keeps its place and takes the new
    value, a new key goes last. *)
Fixpoint Map_set (k v : string) (m : list (string * string)) : list (string * string) :=
  match m with
  | [] => [(k, v)]
  | (k', v') :: rest =>
      if String.eqb k' k then (k, v) :: rest else (k', v') :: Map_set k v rest
  end.

Fixpoint Map_get (k : string) (m : list (string * string)) : option string :=
  match m with
  | [] => None
  | (k', v') :: rest => if String.eqb k' k then Some v' else Map_get k rest
  end.

(** ** The operations of [Migrate] *)

Section Migrate.

(** The collaborators: the database connection, [JSON] and the table
    [./utils/datatypes] ([None] where a key has no entry, which JavaScript
    reads as [undefined]). *)
Variable database : Database.
Variable JSON_stringify : json -> string.
Variable JSON_parse : string -> option json.
Variable datatypes : string -> option string.

(** lines 31-36 *)
Definition retrieveModels : Eff World unit :=
  modelInfo ← await (query_tables database "show full tables where Table_Type = 'BASE TABLE'");
  modify (with_models (Some modelInfo)).

(** lines 47-56: empty the staging directory, or create it *)
Definition clear_datafiles : Eff World unit :=
  try_catch
    (files ← in_datafiles readdirSync;
     if (0 <? length files)%nat
     then for_of files (fun file => in_datafiles (unlinkSync file))
     else mret tt)
    (in_datafiles mkdirSync).

(** lines 59-60: one table *)
Definition stage (model : string) : Eff World unit :=
  modelData ← await (query_rows database ("select * from " +:+ model));
  in_datafiles (writeFileSync (model +:+ ".json") (JSON_stringify modelData)).

(** lines 43-69 *)
Definition retrieveMysqlData : Eff World unit :=
  ms ← gets models;
  match ms with
  | None => throw (Error "Call retrieveModels to get MySQL models!")
  | Some ms =>
      clear_datafiles ;;
      for_of ms stage ;;
      console_log (LogFound (length ms))
  end.

(** line 92: the table an artifact belongs to *)
Definition table_of (schemafile : string) : string :=
  first_segment "." schemafile.

(** lines 94-97: the model name of a table *)
Definition modelname_of (table : string) : string :=
  let modelname := table in
  let modelname :=
    if includes "_" modelname then join (split "_" modelname) else modelname in
  toUpperCase (slice_0_1 modelname) +:+ slice_1 modelname.

(** line 111 *)
Definition datatype_of (field : Column) : string :=
  if includes "(" (Type_ field) then first_segment "(" (Type_ field) else Type_ field.

(** The three interpolated expressions of lines 114-116, as the template
    literal prints them. *)
Definition type_text (field : Column) : string :=
  match datatypes (datatype_of field) with
  | Some tag => tag
  | None => "undefined"
  end.

Definition required_text (field : Column) : string :=
  if String.eqb (Null field) "YES" then "false" else "true".

Definition default_text (field : Column) : string :=
  match Default field with
  | Some literal => if String.eqb literal "CURRENT_TIMESTAMP" then "Date.now" else literal
  | None => "null"
  end.

(** lines 112-117: what one column adds to [modeldefinition] *)
Definition field_text (field : Column) : string :=
  LF +:+ indent 20 +:+ Field field +:+ ": {" +:+
  LF +:+ indent 28 +:+ "type: " +:+ type_text field +:+ "," +:+
  LF +:+ indent 28 +:+ "required: " +:+ required_text field +:+ "," +:+
  LF +:+ indent 28 +:+ "default: " +:+ default_text field +:+ "," +:+
  LF +:+ indent 20 +:+ "},".

(** lines 108-118 *)
Definition modeldefinition_of (definition : list Column) : string :=
  fold_left (fun acc field => acc +:+ field_text field) definition EmptyString.

Definition schema_head : string :=
  "import { Schema, model } from 'mongoose';" +:+ LF +:+ LF.
Definition schema_body (modelname : string) (definition : list Column) : string :=
  "const " +:+ modelname +:+ " = new Schema({" +:+ modeldefinition_of definition +:+ "});".
Definition schema_tail (modelname : string) : string :=
  LF +:+ LF +:+ LF +:+ LF +:+ "export default model('" +:+ modelname +:+ "', " +:+ modelname +:+ ");" +:+ LF.

(** lines 92-122: one staged artifact *)
Definition generate (schemafile : string) : Eff World unit :=
  let modelname := table_of schemafile in
  definition ← await (query_describe database ("describe " +:+ modelname));
  let modelname := modelname_of modelname in
  modify (fun w => with_modelschemas (Map_set schemafile modelname (modelschemas w)) w) ;;
  try_catch (in_mongomodels mkdirSync) (mret tt) ;;
  model ← createWriteStream (modelname +:+ ".ts");
  stream_write model schema_head ;;
  stream_write model (schema_body modelname definition) ;;
  stream_write model (schema_tail modelname).

(** lines 82-89: delete the schema files of an earlier run; whatever goes
    wrong is ignored *)
Definition clear_mongomodels : Eff World unit :=
  try_catch
    (ms ← in_mongomodels readdirSync;
     for_of ms (fun model => in_mongomodels (unlinkSync model)))
    (mret tt).

(** lines 76-124 *)
Definition generateMongoSchemas : Eff World unit :=
  schemafiles ← in_datafiles readdirSync;
  if (length schemafiles <? 1)%nat then throw (Error "Empty directory!")
  else
    clear_mongomodels ;;
    for_of schemafiles generate.

(** lines 135-136: one entry of the mapping *)
Definition load (datafile : string * string) : Eff World unit :=
  text ← in_datafiles (readFileSync datafile.1);
  match JSON_parse text with
  | None => throw SyntaxError
  | Some modeldata => console_log (LogData modeldata)
  end.

(** lines 132-139 *)
Definition populateMongo : Eff World unit :=
  ms ← gets modelschemas;
  if (0 <? length ms)%nat then for_of ms load else mret tt.

End Migrate.

(** ** The landing of streams

    What a write stream does to the disk once the program has created it and
    queued its chunks: it opens its file with flag [w] (the file is created,
    or truncated when it is there), and then writes its chunks one after the
    other, each at the position that its own descriptor has reached.  The
    steps of one stream keep their order; the steps of different streams
    come in any order, since the source awaits none of them.  A stream whose
    file cannot be opened reports it in an event that the source does not
    handle, and writes nothing.

    A stream can take its steps as soon as it exists, also while the call
    that has created it is still running, which awaits the database between
    two artifacts.  Once it has created its first stream, that call changes
    nothing on the schema directory (the directory exists, so that
    [mkdirSync] throws and is caught): the disk at any later moment is what
    steps of the streams make of the directory as the call leaves it.  The
    relation covers the time until the program next unlinks a schema file. *)

Inductive progress :=
| Unopened
| OpenAt (pos : nat)
| Broken.

Record writer := mkWriter {
  writer_path : string;
  writer_progress : progress;
  writer_rest : list string
}.

Definition writer_of (s : stream) : writer :=
  mkWriter (stream_path s) Unopened (stream_chunks s).

Definition NUL : ascii := ascii_of_nat 0.

(** The first [n] code units of [s], with [NUL] where [s] has none. *)
Fixpoint take_padded (n : nat) (s : string) : string :=
  match n with
  | O => EmptyString
  | S k =>
      match s with
      | EmptyString => String NUL (take_padded k EmptyString)
      | String a r => String a (take_padded k r)
      end
  end.

Fixpoint drop_units (n : nat) (s : string) : string :=
  match n, s with
  | O, _ => s
  | S _, EmptyString => EmptyString
  | S k, String _ r => drop_units k r
  end.

(** [content] after [chunk] is written at position [pos]. *)
Definition overlay (pos : nat) (chunk content : string) : string :=
  take_padded pos content +:+ chunk +:+ drop_units (pos + String.length chunk) content.

(** The next step of the stream of rank [i]: the opening of its file, or
    the write of its next chunk. *)
Definition land (i : nat) (cfg : dir * list writer) : dir * list writer :=
  let (d, ws) := cfg in
  match ws !! i with
  | None => cfg
  | Some (mkWriter path Unopened rest) =>
      match d with
      | Some m =>
          match m !! path with
          | Some Directory => (d, <[i := mkWriter path Broken rest]> ws)
          | _ => (Some (<[path := File EmptyString]> m),
                  <[i := mkWriter path (OpenAt 0) rest]> ws)
          end
      | None => (d, <[i := mkWriter path Broken rest]> ws)
      end
  | Some (mkWriter path (OpenAt pos) (chunk :: rest)) =>
      let after := <[i := mkWriter path (OpenAt (pos + String.length chunk)) rest]> ws in
      match d with
      | Some m =>
          match m !! path with
          | Some (File content) =>
              (Some (<[path := File (overlay pos chunk content)]> m), after)
          | _ => (d, after)
          end
      | None => (d, after)
      end
  | Some _ => cfg
  end.

Definition land_step (cfg cfg' : dir * list writer) : Prop :=
  exists i, cfg' = land i cfg.

(** A stream with nothing left to do *)
Definition finished (wr : writer) : bool :=
  match writer_progress wr, writer_rest wr with
  | Unopened, _ => false
  | OpenAt _, [] => true
  | OpenAt _, _ :: _ => false
  | Broken, _ => true
  end.

(** The steps of a schedule, one after the other *)
Definition run (schedule : list nat) (cfg : dir * list writer) : dir * list writer :=
  foldl (fun c i => land i c) cfg schedule.

(** The schema directory as it can be found at some moment after the world
    [w] is reached, and as it can be found once every stream has finished. *)
Definition lands_on (w : World) (d : dir) : Prop :=
  exists ws, rtc land_step (mongomodels w, writer_of <$> streams w) (d, ws).

Definition settles_on (w : World) (d : dir) : Prop :=
  exists ws, rtc land_step (mongomodels w, writer_of <$> streams w) (d, ws) /\
             forallb finished ws = true.

(** The world once its streams have finished with the schema directory [d] *)
Definition settled (d : dir) (w : World) : World :=
  with_streams [] (with_mongomodels d w).

(** The schedule that lets the streams land one by one, in the order of
    their creation, and the schema directory that it leaves *)
Fixpoint one_by_one (rank : nat) (ss : list stream) : list nat :=
  match ss with
  | [] => []
  | s :: rest => replicate (S (length (stream_chunks s))) rank ++ one_by_one (S rank) rest
  end.

Definition drains_to (w : World) : dir :=
  (run (one_by_one 0 (streams w)) (mongomodels w, writer_of <$> streams w)).1.

(** The text of a stream's chunks *)
Definition chunks_text (chunks : list string) : string :=
  fold_right String.append EmptyString chunks.

(** ** The naming rule in the words of the specification

    "removing underscore separators (concatenating the surrounding segments)
    and capitalizing the first character of the result" *)

Fixpoint remove_separators (sep : ascii) (s : string) : string :=
  match s with
  | EmptyString => EmptyString
  | String a r =>
      if Ascii.eqb a sep then remove_separators sep r
      else String a (remove_separators sep r)
  end.

Definition capitalize (s : string) : string :=
  match s with
  | EmptyString => EmptyString
  | String a r => String (upper_char a) r
  end.

Definition spec_model_name (table : string) : string :=
  capitalize (remove_separators "_" table).

(** The whole text of a generated schema file. *)
Definition schema_text (modelname : string) (definition : string) : string :=
  "import { Schema, model } from 'mongoose';" +:+ LF +:+ LF +:+
  "const " +:+ modelname +:+ " = new Schema({" +:+ definition +:+ "});" +:+
  LF +:+ LF +:+ LF +:+ LF +:+
  "export default model('" +:+ modelname +:+ "', " +:+ modelname +:+ ");" +:+ LF.

(** The last lines of a field descriptor whose default is written as [d] *)
Definition default_entry (d : string) : string :=
  "default: " +:+ d +:+ "," +:+ LF +:+ indent 20 +:+ "},".

Definition ends_with (suffix s : string) : Prop :=
  exists before, s = before +:+ suffix.

(** Every entry of a directory is a regular file. *)
Definition all_files (m : gmap string node) : Prop :=
  forall name, m !! name <> Some Directory.

(** A directory that the clean-up of either stage empties: it is absent, or
    it holds regular files only. *)
Definition no_subdirectory (d : option (gmap string node)) : Prop :=
  match d with
  | None => True
  | Some m => all_files m
  end.

(** The names in a directory that holds the artifacts of the tables [T] and
    nothing else *)
Definition artifacts_of (T : list string) (m : gmap string node) : Prop :=
  forall name, is_Some (m !! name) <-> exists t, t ∈ T /\ name = t +:+ ".json".

(** A table name that is one path segment. The model of a directory is
    flat, so the properties of staging are stated for such names; they are
    the names that a statement can use unquoted. *)
Definition entry_name (name : string) : Prop := includes "/" name = false.

(** Whether the text of a thrown value names [table]. *)
Definition carries (e : exn) (table : string) : bool :=
  match e with
  | Error message => is_substring table message
  | FsError _ entry => is_substring table entry
  | QueryError reason => is_substring table reason
  | SyntaxError => false
  end.

(** ** Notions used by the further properties *)

(** [m] keeps [P]: whether [m] returns or throws, it leaves a state that
    satisfies [P] in a state that satisfies [P]. *)
Definition preserves {S A} (P : S -> Prop) (m : Eff S A) : Prop :=
  forall s, P s -> P (m s).2.

(** What [populateMongo] gets out of the entry [name] of the staging
    directory: the parsed text of a regular file, where there is one and it
    parses. *)
Definition readable (JSON_parse : string -> option json) (d : dir) (name : string)
    : option json :=
  match d with
  | Some m =>
      match m !! name with
      | Some (File text) => JSON_parse text
      | _ => None
      end
  | None => None
  end.

(** What [populateMongo] throws at an entry that is not [readable]. *)
Definition load_failure (d : dir) (name : string) : exn :=
  match d with
  | Some m =>
      match m !! name with
      | Some (File _) => SyntaxError
      | Some Directory => FsError EISDIR name
      | None => FsError ENOENT name
      end
  | None => FsError ENOENT name
  end.

(** The staging directory [m] holds the artifacts of the tables [T], each with
    the serialized rows that the database gives for its table, and nothing
    else. *)
Definition staged_with (database : Database) (JSON_stringify : json -> string)
    (T : list string) (m : gmap string node) : Prop :=
  artifacts_of T m /\
  forall t, t ∈ T ->
    exists rows, query_rows database ("select * from " +:+ t) = Resolved rows /\
                 m !! (t +:+ ".json") = Some (File (JSON_stringify rows)).

(** The stream that lines 105-121 create for a model and the three chunks
    that they hand to it *)
Definition schema_stream (datatypes : string -> option string) (modelname : string)
    (definition : list Column) : stream :=
  mkStream (modelname +:+ ".ts")
    [schema_head; schema_body datatypes modelname definition; schema_tail modelname].

(** The streams of the artifacts of a list, for those whose table is
    described *)
Definition streams_of (database : Database) (datatypes : string -> option string)
    (l : list string) : list stream :=
  omap (fun f =>
          match query_describe database ("describe " +:+ table_of f) with
          | Resolved definition =>
              Some (schema_stream datatypes (modelname_of (table_of f)) definition)
          | Rejected _ => None
          end) l.

(** The directory [m] once each of the streams [ss], one after the other,
    has written its file out *)
Definition written_one_by_one (m : gmap string node) (ss : list stream)
    : gmap string node :=
  foldl (fun acc s => <[stream_path s := File (chunks_text (stream_chunks s))]> acc) m ss.

(** No other stream of [ss] than the one of rank [i] is on the path [path]. *)
Definition alone (ss : list stream) (i : nat) (path : string) : Prop :=
  forall j s, ss !! j = Some s -> stream_path s = path -> j = i.

(** Where the stream [s] of rank [i] stands, in front of the directory [m]:
    not yet opened, or opened with some of its chunks written, and then its
    file is there; the file holds those chunks and nothing else when no
    other stream is on its path. *)
Definition writer_at (ss : list stream) (m : gmap string node) (i : nat) (s : stream)
    (wr : writer) : Prop :=
  writer_path wr = stream_path s /\
  match writer_progress wr with
  | Unopened => writer_rest wr = stream_chunks s
  | OpenAt pos =>
      exists written content,
        stream_chunks s = written ++ writer_rest wr /\
        pos = String.length (chunks_text written) /\
        m !! stream_path s = Some (File content) /\
        (alone ss i (stream_path s) -> content = chunks_text written)
  | Broken => False
  end.

(** What holds at every moment while the streams [ss] land on a directory
    that was [m0], with regular files only, when the first of them was
    created *)
Definition landing (m0 : gmap string node) (ss : list stream)
    (cfg : dir * list writer) : Prop :=
  exists m, cfg.1 = Some m /\ all_files m /\
    length cfg.2 = length ss /\
    (forall i s, ss !! i = Some s ->
       exists wr, cfg.2 !! i = Some wr /\ writer_at ss m i s wr) /\
    (forall k, (forall s, s ∈ ss -> stream_path s <> k) -> m !! k = m0 !! k).

(** The four operations in the order that their checks ask for. *)
Definition pipeline (database : Database) (JSON_stringify : json -> string)
    (JSON_parse : string -> option json) (datatypes : string -> option string)
    : Eff World unit :=
  retrieveModels database ;;
  retrieveMysqlData database JSON_stringify ;;
  generateMongoSchemas database datatypes ;;
  populateMongo JSON_parse.

(** ** A sample environment

    The two tables of the end-to-end scenario, a database that answers for a
    given list of tables, a serializer for values without characters to
    escape, and a sample of the table [./utils/datatypes]. *)

Module Sample.

Definition quote : string := String (ascii_of_nat 34) EmptyString.

Fixpoint commas (parts : list string) : string :=
  match parts with
  | [] => EmptyString
  | [p] => p
  | p :: rest => p +:+ "," +:+ commas rest
  end.

Fixpoint stringify (v : json) : string :=
  match v with
  | JNull => "null"
  | JNum n => pretty n
  | JStr s => quote +:+ s +:+ quote
  | JArr items => "[" +:+ commas (map stringify items) +:+ "]"
  | JObj members =>
      "{" +:+ commas (map (fun kv => quote +:+ fst kv +:+ quote +:+ ":" +:+ stringify (snd kv)) members) +:+ "}"
  end.

(** A parser that knows the texts of the values in [known]. *)
Definition parse_among (known : list json) (text : string) : option json :=
  List.find (fun v => String.eqb (stringify v) text) known.

Definition datatypes (key : string) : option string :=
  if String.eqb key "int" then Some "Number"
  else if String.eqb key "varchar" then Some "String"
  else if String.eqb key "timestamp" then Some "Date"
  else None.

Record table := mkTable {
  table_name : string;
  table_columns : list Column;
  table_rows : json
}.

Definition find_table (tables : list table) (prefix sql : string) : option table :=
  List.find (fun t => String.eqb (prefix +:+ table_name t) sql) tables.

(** A server holding [tables]. *)
Definition mysql (tables : list table) : Database :=
  mkDatabase
    (fun sql =>
       if String.eqb sql "show full tables where Table_Type = 'BASE TABLE'"
       then Resolved (map table_name tables)
       else Rejected "ER_PARSE_ERROR")
    (fun sql =>
       match find_table tables "select * from " sql with
       | Some t => Resolved (table_rows t)
       | None => Rejected "ER_NO_SUCH_TABLE"
       end)
    (fun sql =>
       match find_table tables "describe " sql with
       | Some t => Resolved (table_columns t)
       | None => Rejected "ER_NO_SUCH_TABLE"
       end).

Definition users : table :=
  mkTable "users"
    [mkColumn "id" "int(11)" "NO" None;
     mkColumn "email" "varchar(255)" "YES" None]
    (JArr [JObj [("id", JNum 1); ("email", JStr "ann@example.org")]]).

Definition order_items : table :=
  mkTable "order_items"
    [mkColumn "qty" "int(11)" "NO" (Some "1")]
    (JArr [JObj [("qty", JNum 2)]; JObj [("qty", JNum 5)]]).


Definition shapes : table :=
  mkTable "shapes"
    [mkColumn "outline" "geometry" "NO" None]
    (JArr []).

(** The server of [tables], whose connection is reset while it reads the
    rows of [lost]. *)
Definition reset_on (lost : string) (tables : list table) : Database :=
  mkDatabase
    (query_tables (mysql tables))
    (fun sql =>
       if String.eqb sql ("select * from " +:+ lost) then Rejected "read ECONNRESET"
       else query_rows (mysql tables) sql)
    (query_describe (mysql tables)).

(** A new instance after [retrieveModels], in front of a staging directory
    that an earlier run has left. *)
Definition discovered (tables : list table) : World :=
  (retrieveModels (mysql tables)
     (constructor (Some {["old.json" := File "[]"]}) None ∅)).2.

(** The same instance once [tables] are staged. *)
Definition staged (tables : list table) : World :=
  (retrieveMysqlData (mysql tables) stringify (discovered tables)).2.

(** An instance with the traces of an earlier run and an empty staging
    directory. *)
Definition unstaged : World :=
  mkWorld (Some []) [("old.json", "Old")] (Some ∅)
    (Some {["Old.ts" := File "const Old = new Schema({});"]}) [] ∅ [].

(** The same instance once the schemas of [tables] are generated. *)
Definition generated (tables : list table) : World :=
  (generateMongoSchemas (mysql tables) datatypes (staged tables)).2.

Definition email : Column := mkColumn "email" "varchar(255)" "YES" None.




Definition parse (tables : list table) : string -> option json :=
  parse_among (map table_rows tables).

(** The whole pipeline on a new instance, as long as no step throws. *)
Definition pipeline (tables : list table) : Eff World unit :=
  retrieveModels (mysql tables) ;;
  retrieveMysqlData (mysql tables) stringify ;;
  generateMongoSchemas (mysql tables) datatypes ;;
  populateMongo (parse tables).

(** Discovery, staging and generation for [first], then again for
    [second], on one instance. *)
Definition two_runs (first second : list table) : Eff World unit :=
  retrieveModels (mysql first) ;;
  retrieveMysqlData (mysql first) stringify ;;
  generateMongoSchemas (mysql first) datatypes ;;
  retrieveModels (mysql second) ;;
  retrieveMysqlData (mysql second) stringify ;;
  generateMongoSchemas (mysql second) datatypes.

End Sample.


(** * Properties *)

(** ** Strings *)

Lemma append_assoc (a b c : string) : (a +:+ b) +:+ c = a +:+ (b +:+ c).
Proof. induction a as [|x a IH]; simpl; [reflexivity | by rewrite IH]. Qed.

Lemma append_empty_r (a : string) : a +:+ EmptyString = a.
Proof. induction a as [|x a IH]; simpl; [reflexivity | by rewrite IH]. Qed.

Lemma length_append (a b : string) :
  String.length (a +:+ b) = String.length a + String.length b.
Proof. induction a as [|x a IH]; simpl; [reflexivity | by rewrite IH]. Qed.

Lemma append_inj_l (a b x : string) : a +:+ x = b +:+ x -> a = b.
Proof.
  revert b. induction a as [|c a IH]; intros [|c' b] H; simpl in H.
  - reflexivity.
  - apply (f_equal String.length) in H. simpl in H. rewrite length_append in H. lia.
  - apply (f_equal String.length) in H. simpl in H. rewrite length_append in H. lia.
  - injection H as -> H. f_equal. by apply IH.
Qed.

Lemma split_cons (sep : ascii) (s : string) :
  exists seg segs, split sep s = seg :: segs.
Proof.
  induction s as [|a r [seg [segs IH]]]; simpl; [by eauto |].
  destruct (Ascii.eqb a sep); [by eauto |]. rewrite IH. by eauto.
Qed.

Lemma join_split (sep : ascii) (s : string) :
  join (split sep s) = remove_separators sep s.
Proof.
  induction s as [|a r IH]; simpl; [reflexivity |].
  destruct (Ascii.eqb a sep); simpl; [exact IH |].
  destruct (split_cons sep r) as [seg [segs E]]. rewrite E in IH |- *.
  simpl in *. by rewrite IH.
Qed.

Lemma remove_separators_id (sep : ascii) (s : string) :
  includes sep s = false -> remove_separators sep s = s.
Proof.
  induction s as [|a r IH]; simpl; [reflexivity |].
  destruct (Ascii.eqb a sep); [discriminate |]. intros H. by rewrite IH.
Qed.

Lemma capitalize_slices (s : string) :
  toUpperCase (slice_0_1 s) +:+ slice_1 s = capitalize s.
Proof. by destruct s. Qed.

(** The source's two steps (lines 94-97) are the specification's rule. *)
Lemma modelname_of_spec (table : string) :
  modelname_of table = spec_model_name table.
Proof.
  unfold modelname_of, spec_model_name. rewrite capitalize_slices.
  destruct (includes "_" table) eqn:E.
  - by rewrite join_split.
  - by rewrite remove_separators_id.
Qed.

Lemma first_segment_append (sep : ascii) (t rest : string) :
  includes sep t = false -> first_segment sep (t +:+ String sep rest) = t.
Proof.
  unfold first_segment. induction t as [|a r IH]; simpl.
  - by rewrite Ascii.eqb_refl.
  - destruct (Ascii.eqb a sep); [discriminate |]. intros H.
    specialize (IH H). destruct (split sep (r +:+ String sep rest)); by subst.
Qed.

(** An artifact [<table>.json] is traced back to its table. *)
Lemma table_of_artifact (t : string) :
  includes "." t = false -> table_of (t +:+ ".json") = t.
Proof. apply first_segment_append. Qed.

Lemma artifact_name_inj (t1 t2 : string) :
  t1 +:+ ".json" = t2 +:+ ".json" -> t1 = t2.
Proof. apply append_inj_l. Qed.

(** ** The monad *)

Section Effects.
Context {S A B : Type}.
Implicit Types (m : Eff S A) (k : A -> Eff S B).

Lemma bind_normal m k s a s' :
  m s = (Normal a, s') -> (m ≫= k) s = k a s'.
Proof. intros H. unfold mbind, Eff_bind. by rewrite H. Qed.

Lemma bind_throw m k s e s' :
  m s = (Throw e, s') -> (m ≫= k) s = (Throw e, s').
Proof. intros H. unfold mbind, Eff_bind. by rewrite H. Qed.

Lemma bind_normal_inv m k s b s2 :
  (m ≫= k) s = (Normal b, s2) ->
  exists a s1, m s = (Normal a, s1) /\ k a s1 = (Normal b, s2).
Proof.
  unfold mbind, Eff_bind. destruct (m s) as [[a|e] s1]; intros H.
  - by eauto.
  - discriminate.
Qed.
End Effects.

Lemma for_of_app {S A} (xs ys : list A) (body : A -> Eff S unit) (s : S) :
  for_of (xs ++ ys) body s =
  match for_of xs body s with
  | (Normal _, s') => for_of ys body s'
  | (Throw e, s') => (Throw e, s')
  end.
Proof.
  revert s. induction xs as [|x xs IH]; intros s; simpl; [reflexivity |].
  unfold mbind, Eff_bind. destruct (body x s) as [[[]|e] s1]; [apply IH | reflexivity].
Qed.

(** ** The world's fields under the two directory lenses *)

Lemma with_datafiles_id (w : World) : with_datafiles (datafiles w) w = w.
Proof. by destruct w. Qed.

Lemma with_datafiles_twice (d d' : dir) (w : World) :
  with_datafiles d' (with_datafiles d w) = with_datafiles d' w.
Proof. reflexivity. Qed.

Lemma with_mongomodels_id (w : World) : with_mongomodels (mongomodels w) w = w.
Proof. by destruct w. Qed.

Lemma in_datafiles_for_of {A} (xs : list A) (op : A -> Eff dir unit) (w : World) :
  for_of xs (fun x => in_datafiles (op x)) w = in_datafiles (for_of xs op) w.
Proof.
  revert w. induction xs as [|x xs IH]; intros w.
  - unfold in_datafiles. simpl. unfold mret, Eff_ret. by rewrite with_datafiles_id.
  - simpl. unfold mbind, Eff_bind, in_datafiles at 1 3.
    destruct (op x (datafiles w)) as [[[]|e] d]; [|reflexivity].
    rewrite IH. unfold in_datafiles. simpl.
    by destruct (for_of xs op d).
Qed.

Lemma in_mongomodels_for_of {A} (xs : list A) (op : A -> Eff dir unit) (w : World) :
  for_of xs (fun x => in_mongomodels (op x)) w = in_mongomodels (for_of xs op) w.
Proof.
  revert w. induction xs as [|x xs IH]; intros w.
  - unfold in_mongomodels. simpl. unfold mret, Eff_ret. by rewrite with_mongomodels_id.
  - simpl. unfold mbind, Eff_bind, in_mongomodels at 1 3.
    destruct (op x (mongomodels w)) as [[[]|e] d]; [|reflexivity].
    rewrite IH. unfold in_mongomodels. simpl.
    by destruct (for_of xs op d).
Qed.

(** ** Emptying a directory *)

Lemma all_files_empty : all_files ∅.
Proof. intros name. by rewrite lookup_empty. Qed.

Lemma all_files_insert (m : gmap string node) (name content : string) :
  all_files m -> all_files (<[name := File content]> m).
Proof.
  intros H k. destruct (decide (name = k)) as [->|Hne].
  - by rewrite lookup_insert_eq.
  - rewrite lookup_insert_ne; [apply H | done].
Qed.

Lemma all_files_delete (m : gmap string node) (name : string) :
  all_files m -> all_files (delete name m).
Proof.
  intros H k. destruct (decide (name = k)) as [->|Hne].
  - by rewrite lookup_delete_eq.
  - rewrite lookup_delete_ne; [apply H | done].
Qed.

(** When every [unlinkSync] of the loop returns, the named entries are gone
    and nothing else has changed. *)
Lemma unlink_loop_inv (l : list string) (m : gmap string node) (d' : dir) :
  for_of l unlinkSync (Some m) = (Normal tt, d') ->
  exists m', d' = Some m' /\ m' ⊆ m /\ forall k, k ∈ l -> m' !! k = None.
Proof.
  revert m. induction l as [|k l IH]; intros m H; simpl in H.
  - injection H as <-. exists m. split; [done|]. split; [done|]. intros k Hk. by apply elem_of_nil in Hk.
  - apply bind_normal_inv in H as ([] & d1 & Hk & Hl).
    unfold unlinkSync in Hk. destruct (m !! k) as [[c|]|] eqn:E; try discriminate.
    injection Hk as <-. apply IH in Hl as (m' & -> & Hsub & Hgone).
    exists m'. split; [done|]. split.
    + etrans; [exact Hsub | apply delete_subseteq].
    + intros k' [->|Hk']%elem_of_cons; [|by apply Hgone].
      eapply lookup_weaken_None; [apply lookup_delete_eq | exact Hsub].
Qed.

(** The loop over regular files returns. *)
Lemma unlink_loop_files (l : list string) (m : gmap string node) :
  all_files m -> NoDup l -> (forall k, k ∈ l -> is_Some (m !! k)) ->
  exists m', for_of l unlinkSync (Some m) = (Normal tt, Some m').
Proof.
  revert m. induction l as [|k l IH]; intros m Hf Hnd Hin; simpl.
  - by exists m.
  - apply NoDup_cons in Hnd as [Hk Hnd].
    destruct (Hin k) as [n Hn]; [by left|].
    destruct n as [c|]; [|by destruct (Hf k)].
    destruct (IH (delete k m)) as [m' Hm'].
    + by apply all_files_delete.
    + exact Hnd.
    + intros k' Hk'. rewrite lookup_delete_ne; [apply Hin; by right |].
      intros ->. by apply Hk.
    + exists m'. erewrite bind_normal; [exact Hm'|]. unfold unlinkSync. by rewrite Hn.
Qed.

Lemma readdir_all (m : gmap string node) (k : string) :
  is_Some (m !! k) -> k ∈ (map_to_list m).*1.
Proof.
  intros [n Hn]. apply list_elem_of_fmap. exists (k, n). split; [done|].
  by apply elem_of_map_to_list.
Qed.

Lemma readdir_is_Some (m : gmap string node) (k : string) :
  k ∈ (map_to_list m).*1 -> is_Some (m !! k).
Proof.
  intros ((k' & n) & -> & Hn)%list_elem_of_fmap. exists n.
  by apply elem_of_map_to_list.
Qed.

(** Unlinking every entry that [readdirSync] lists leaves the directory
    empty, if the loop returns at all. *)
Lemma unlink_everything_inv (m : gmap string node) (d' : dir) :
  for_of (map_to_list m).*1 unlinkSync (Some m) = (Normal tt, d') -> d' = Some ∅.
Proof.
  intros (m' & -> & Hsub & Hgone)%unlink_loop_inv. f_equal.
  apply map_empty. intros k. destruct (m !! k) eqn:E.
  - apply Hgone, readdir_all. by rewrite E.
  - by eapply lookup_weaken_None.
Qed.

Lemma unlink_everything_files (m : gmap string node) :
  all_files m -> for_of (map_to_list m).*1 unlinkSync (Some m) = (Normal tt, Some ∅).
Proof.
  intros Hf.
  destruct (unlink_loop_files (map_to_list m).*1 m) as [m' Hm'].
  - exact Hf.
  - apply NoDup_fst_map_to_list.
  - apply readdir_is_Some.
  - rewrite Hm'. f_equal. by apply unlink_everything_inv in Hm'.
Qed.

(** ** Staging: [retrieveMysqlData] *)

Section Staging.

Variable database : Database.
Variable JSON_stringify : json -> string.

#[local] Abbreviation select t := (query_rows database ("select * from " +:+ t)).
#[local] Abbreviation stage1 := (stage database JSON_stringify).
#[local] Abbreviation retrieve := (retrieveMysqlData database JSON_stringify).

Lemma clear_datafiles_unfold (w : World) :
  clear_datafiles w =
  match datafiles w with
  | None => (Normal tt, with_datafiles (Some ∅) w)
  | Some m =>
      match for_of (map_to_list m).*1 unlinkSync (Some m) with
      | (Normal _, d) => (Normal tt, with_datafiles d w)
      | (Throw _, Some m') => (Throw (FsError EEXIST EmptyString), with_datafiles (Some m') w)
      | (Throw _, None) => (Normal tt, with_datafiles (Some ∅) w)
      end
  end.
Proof.
  unfold clear_datafiles, try_catch, mbind, Eff_bind, in_datafiles at 1, readdirSync.
  destruct (datafiles w) as [m|] eqn:E.
  - assert ((if (0 <? length (map_to_list m).*1)%nat
             then for_of (map_to_list m).*1 (fun file => in_datafiles (unlinkSync file))
             else mret tt) (with_datafiles (Some m) w)
            = in_datafiles (for_of (map_to_list m).*1 unlinkSync) (with_datafiles (Some m) w)) as ->.
    { rewrite <- in_datafiles_for_of. by destruct ((map_to_list m).*1). }
    unfold in_datafiles. simpl.
    destruct (for_of (map_to_list m).*1 unlinkSync (Some m)) as [[[]|e] d]; [done|].
    unfold mkdirSync. simpl. by destruct d.
  - unfold in_datafiles, mkdirSync. reflexivity.
Qed.

(** The clean-up returns only with an empty directory in place. *)
Lemma clear_datafiles_inv (w w' : World) :
  clear_datafiles w = (Normal tt, w') -> w' = with_datafiles (Some ∅) w.
Proof.
  rewrite clear_datafiles_unfold. destruct (datafiles w) as [m|].
  - destruct (for_of (map_to_list m).*1 unlinkSync (Some m)) as [[[]|e] d] eqn:E.
    + apply unlink_everything_inv in E as ->. by intros [= <-].
    + destruct d; [discriminate | by intros [= <-]].
  - by intros [= <-].
Qed.

Lemma clear_datafiles_ok (w : World) :
  no_subdirectory (datafiles w) ->
  clear_datafiles w = (Normal tt, with_datafiles (Some ∅) w).
Proof.
  rewrite clear_datafiles_unfold. destruct (datafiles w) as [m|]; simpl; [|done].
  intros Hf. by rewrite unlink_everything_files.
Qed.

Lemma stage_unfold (t : string) (w : World) :
  stage1 t w =
  match select t with
  | Rejected r => (Throw (QueryError r), w)
  | Resolved rows =>
      match datafiles w with
      | None => (Throw (FsError ENOENT (t +:+ ".json")), w)
      | Some m =>
          match m !! (t +:+ ".json") with
          | Some Directory => (Throw (FsError EISDIR (t +:+ ".json")), w)
          | _ => (Normal tt,
                  with_datafiles (Some (<[t +:+ ".json" := File (JSON_stringify rows)]> m)) w)
          end
      end
  end.
Proof.
  unfold stage, mbind, Eff_bind, await.
  destruct (select t) as [rows|r]; [|reflexivity].
  unfold mret, Eff_ret, in_datafiles, writeFileSync.
  destruct (datafiles w) as [m|] eqn:E.
  - destruct (m !! (t +:+ ".json")) as [[c|]|]; try reflexivity.
    by rewrite <- E, with_datafiles_id.
  - by rewrite <- E, with_datafiles_id.
Qed.

(** What the staging loop has written when it returns. *)
Lemma stage_loop_inv (l : list string) (w w' : World) (m0 : gmap string node) :
  datafiles w = Some m0 ->
  for_of l stage1 w = (Normal tt, w') ->
  exists m', w' = with_datafiles (Some m') w /\
    (forall t, t ∈ l -> exists rows, select t = Resolved rows /\
                                m' !! (t +:+ ".json") = Some (File (JSON_stringify rows))) /\
    (forall name, (forall t, t ∈ l -> name <> t +:+ ".json") -> m' !! name = m0 !! name).
Proof.
  revert w m0. induction l as [|t l IH]; intros w m0 Hd H; simpl in H.
  - injection H as <-. exists m0. rewrite <- Hd, with_datafiles_id.
    split; [done|]. split; [|done]. intros t Ht. by apply elem_of_nil in Ht.
  - apply bind_normal_inv in H as ([] & w1 & Ht & Hl).
    rewrite stage_unfold, Hd in Ht.
    destruct (select t) as [rows|r] eqn:Eq; [|discriminate].
    assert (w1 = with_datafiles (Some (<[t +:+ ".json" := File (JSON_stringify rows)]> m0)) w) as ->.
    { destruct (m0 !! (t +:+ ".json")) as [[c|]|]; by inversion Ht. }
    apply IH with (m0 := <[t +:+ ".json" := File (JSON_stringify rows)]> m0) in Hl;
      [|reflexivity].
    destruct Hl as (m' & -> & Hin & Hout).
    exists m'. split; [done|]. split.
    + intros t' Ht'. destruct (decide (t' ∈ l)) as [Hl|Hl]; [by apply Hin|].
      apply elem_of_cons in Ht' as [->|Ht']; [|done].
      exists rows. split; [done|]. rewrite Hout.
      * apply lookup_insert_eq.
      * intros t'' Ht'' Heq%artifact_name_inj. by subst.
    + intros name Hname. rewrite Hout.
      * rewrite lookup_insert_ne; [done|]. intros Heq. by apply (Hname t); [left|].
      * intros t' Ht'. apply Hname. by right.
Qed.

(** The staging loop returns when every read succeeds. *)
Lemma stage_loop_ok (l : list string) (w : World) (m0 : gmap string node) :
  datafiles w = Some m0 -> all_files m0 ->
  (forall t, t ∈ l -> exists rows, select t = Resolved rows) ->
  exists w', for_of l stage1 w = (Normal tt, w').
Proof.
  revert w m0. induction l as [|t l IH]; intros w m0 Hd Hf Hq; simpl.
  - by eexists.
  - destruct (Hq t) as [rows Hrows]; [by left|].
    pose proof (stage_unfold t w) as Ht. rewrite Hrows, Hd in Ht.
    assert (stage1 t w = (Normal tt,
              with_datafiles (Some (<[t +:+ ".json" := File (JSON_stringify rows)]> m0)) w)) as Ht'.
    { rewrite Ht. destruct (m0 !! (t +:+ ".json")) as [[c|]|] eqn:E; try done. by destruct (Hf _ E). }
    edestruct (IH (with_datafiles (Some (<[t +:+ ".json" := File (JSON_stringify rows)]> m0)) w))
      as [w' Hw'].
    + reflexivity.
    + by apply all_files_insert.
    + intros t' Ht''. apply Hq. by right.
    + exists w'. by erewrite bind_normal.
Qed.

Lemma retrieveMysqlData_unfold (w : World) (T : list string) :
  models w = Some T ->
  retrieve w =
  (clear_datafiles ;; for_of T stage1 ;; console_log (LogFound (length T))) w.
Proof. intros H. unfold retrieveMysqlData, mbind at 1, Eff_bind at 1, gets. by rewrite H. Qed.

Lemma staged_exactly (T : list string) (w w' : World) :
  for_of T stage1 (with_datafiles (Some ∅) w) = (Normal tt, w') ->
  exists m, w' = with_datafiles (Some m) w /\ artifacts_of T m /\
    forall t, t ∈ T -> exists rows, select t = Resolved rows /\
                               m !! (t +:+ ".json") = Some (File (JSON_stringify rows)).
Proof.
  intros (m & -> & Hin & Hout)%(stage_loop_inv _ _ _ ∅); [|done].
  exists m. split; [done|]. split; [|done].
  intros name. split.
  - intros Hsome. destruct (decide (Exists (fun t => name = t +:+ ".json") T)) as [He|Hn].
    + apply Exists_exists in He as (t & Ht & ->). by exists t.
    + rewrite Hout, lookup_empty in Hsome; [by destruct Hsome|].
      intros t Ht ->. apply Hn, Exists_exists. by exists t.
  - intros (t & Ht & ->). destruct (Hin t Ht) as (rows & _ & ->). by eexists.
Qed.

Lemma artifacts_size (T : list string) (m : gmap string node) :
  artifacts_of T m -> NoDup T -> size m = length T.
Proof.
  intros Ha Hnd.
  assert (dom m = list_to_set ((fun t => t +:+ ".json") <$> T)) as Hdom.
  { apply set_eq. intros name. rewrite elem_of_dom, elem_of_list_to_set, list_elem_of_fmap.
    split.
    - intros (t & ? & ?)%Ha. by exists t.
    - intros (t & ? & ?). apply Ha. by exists t. }
  rewrite <- size_dom, Hdom, size_list_to_set, length_fmap; [done|].
  apply NoDup_fmap; [|done]. intros t1 t2. apply artifact_name_inj.
Qed.

(** C2. Take an instance that has discovered the tables [T] (names of one
    path segment). Staging returns whenever the staging directory is absent
    or holds regular files only and every read succeeds; and whenever it
    has returned, the staging directory exists and holds exactly the
    artifacts [<table>.json] of the tables of [T], one for each table, each
    with the serialized rows of its table: whatever was there before is
    gone. *)
Theorem staging_replaces_artifacts (w : World) (T : list string) :
  models w = Some T -> Forall entry_name T ->
  (no_subdirectory (datafiles w) ->
   (forall t, t ∈ T -> exists rows, select t = Resolved rows) ->
   exists w', retrieve w = (Normal tt, w')) /\
  (forall w', retrieve w = (Normal tt, w') ->
   exists m, datafiles w' = Some m /\ artifacts_of T m /\
     (NoDup T -> size m = length T) /\
     forall t, t ∈ T ->
       exists rows, select t = Resolved rows /\
                    m !! (t +:+ ".json") = Some (File (JSON_stringify rows))).
Proof.
  intros Hm _. rewrite (retrieveMysqlData_unfold _ _ Hm). split.
  - intros Hd Hq.
    destruct (stage_loop_ok T (with_datafiles (Some ∅) w) ∅) as [w1 Hw1];
      [done | apply all_files_empty | done |].
    eexists. erewrite bind_normal; [|by apply clear_datafiles_ok].
    erewrite bind_normal; [|exact Hw1]. reflexivity.
  - intros w' H.
    apply bind_normal_inv in H as ([] & w0 & ->%clear_datafiles_inv & H).
    apply bind_normal_inv in H as ([] & w1 & Hs & Hlog).
    apply staged_exactly in Hs as (m & -> & Ha & Hrows).
    injection Hlog as <-. exists m. split; [done|]. split; [done|]. split; [|done].
    by apply artifacts_size.
Qed.

(** C9, as the code has it. When the read of table [t] is rejected, staging
    stops there: it throws the rejection of that read as it is, the
    directory holds exactly the artifacts of the tables before [t], with
    their rows, and neither [t] nor a table after it is staged. *)
Theorem staging_fails_fast (w : World) (pre post : list string) (t reason : string) :
  models w = Some (pre ++ t :: post) -> Forall entry_name (pre ++ t :: post) ->
  no_subdirectory (datafiles w) ->
  (forall p, p ∈ pre -> exists rows, select p = Resolved rows) ->
  select t = Rejected reason ->
  exists m, retrieve w = (Throw (QueryError reason), with_datafiles (Some m) w) /\
    artifacts_of pre m /\
    (forall p, p ∈ pre ->
       exists rows, select p = Resolved rows /\
                    m !! (p +:+ ".json") = Some (File (JSON_stringify rows))) /\
    (forall q, q ∈ (t :: post) -> q ∉ pre -> m !! (q +:+ ".json") = None).
Proof.
  intros Hm _ Hd Hq Ht. rewrite (retrieveMysqlData_unfold _ _ Hm).
  destruct (stage_loop_ok pre (with_datafiles (Some ∅) w) ∅) as [w1 Hw1];
    [done | apply all_files_empty | done |].
  pose proof Hw1 as (m & -> & Ha & Hrows)%staged_exactly.
  exists m. split; [|split; [done|split; [done|]]].
  - erewrite bind_normal; [|by apply clear_datafiles_ok].
    apply bind_throw. rewrite for_of_app, Hw1. simpl.
    apply bind_throw. by rewrite stage_unfold, Ht.
  - intros q _ Hq'. destruct (m !! (q +:+ ".json")) eqn:E; [|done].
    destruct (proj1 (Ha (q +:+ ".json"))) as (p & Hp & Heq%artifact_name_inj); [by eexists|].
    by subst.
Qed.

End Staging.

(** The sample run of C2: two tables, a stale artifact in the directory. *)
Lemma staging_replaces_artifacts_witness :
  let w := Sample.discovered [Sample.users; Sample.order_items] in
  let db := Sample.mysql [Sample.users; Sample.order_items] in
  exists w', retrieveMysqlData db Sample.stringify w = (Normal tt, w') /\
    exists m, datafiles w' = Some m /\ artifacts_of ["users"; "order_items"] m /\
              size m = 2 /\ m !! "old.json" = None.
Proof.
  intros w db.
  destruct (staging_replaces_artifacts db Sample.stringify w ["users"; "order_items"])
    as [Hruns Hthen]; [reflexivity | by repeat constructor |].
  destruct Hruns as [w' Hw'].
  - apply all_files_insert, all_files_empty.
  - intros t Ht. apply list_elem_of_In in Ht. simpl in Ht.
    destruct Ht as [<-|[<-|[]]]; eexists; reflexivity.
  - exists w'. split; [exact Hw'|].
    destruct (Hthen w' Hw') as (m & Hm & Ha & Hsize & _).
    exists m. split; [exact Hm|]. split; [exact Ha|]. split.
    + apply Hsize. apply (bool_decide_unpack _). by vm_compute.
    + destruct (m !! "old.json") eqn:E; [|done].
      destruct (proj1 (Ha "old.json")) as (t & Ht & Heq); [by eexists|].
      apply list_elem_of_In in Ht. simpl in Ht.
      destruct Ht as [<-|[<-|[]]]; discriminate Heq.
Defined.

(** The sample failure of C9: the connection is reset while the second of
    three tables is read. *)
Lemma staging_fails_fast_witness :
  let w := Sample.discovered [Sample.users; Sample.order_items; Sample.shapes] in
  let db := Sample.reset_on "order_items" [Sample.users; Sample.order_items; Sample.shapes] in
  exists m, retrieveMysqlData db Sample.stringify w
            = (Throw (QueryError "read ECONNRESET"), with_datafiles (Some m) w) /\
    artifacts_of ["users"] m /\ m !! "shapes.json" = None.
Proof.
  intros w db.
  destruct (staging_fails_fast db Sample.stringify w ["users"] ["shapes"] "order_items"
              "read ECONNRESET") as (m & Hrun & Ha & _ & Hnone).
  - reflexivity.
  - by repeat constructor.
  - apply all_files_insert, all_files_empty.
  - intros p ->%list_elem_of_singleton. by eexists.
  - reflexivity.
  - exists m. split; [exact Hrun|]. split; [exact Ha|].
    apply (Hnone "shapes"); [by right; left|]. by intros ?%list_elem_of_singleton.
Defined.

(** C9 as stated does not hold: the value thrown need not name the table.
    Here the database rejects the read of [order_items] with a connection
    error, and that is all the caller gets. *)
Lemma staging_error_without_table_name :
  ~ (forall (database : Database) (stringify : json -> string) (w : World)
            (pre post : list string) (t reason : string),
       models w = Some (pre ++ t :: post) ->
       no_subdirectory (datafiles w) ->
       (forall p, p ∈ pre -> exists rows, query_rows database ("select * from " +:+ p) = Resolved rows) ->
       query_rows database ("select * from " +:+ t) = Rejected reason ->
       exists e w', retrieveMysqlData database stringify w = (Throw e, w') /\ carries e t = true).
Proof.
  intros H.
  destruct (H (Sample.reset_on "order_items" [Sample.users; Sample.order_items; Sample.shapes])
              Sample.stringify
              (Sample.discovered [Sample.users; Sample.order_items; Sample.shapes])
              ["users"] ["shapes"] "order_items" "read ECONNRESET")
    as (e & w' & Hrun & Hcarries).
  - reflexivity.
  - apply all_files_insert, all_files_empty.
  - intros p ->%list_elem_of_singleton. by eexists.
  - reflexivity.
  - vm_compute in Hrun. injection Hrun as <- _. discriminate Hcarries.
Qed.

(** ** The mapping [modelschemas] *)

Lemma Map_get_set_eq (k v : string) (ms : list (string * string)) :
  Map_get k (Map_set k v ms) = Some v.
Proof.
  induction ms as [|[k' v'] ms IH]; simpl.
  - by rewrite String.eqb_refl.
  - destruct (String.eqb k' k) eqn:E; simpl.
    + by rewrite String.eqb_refl.
    + by rewrite E.
Qed.

Lemma Map_get_set_ne (k k' v : string) (ms : list (string * string)) :
  k <> k' -> Map_get k (Map_set k' v ms) = Map_get k ms.
Proof.
  intros Hne. induction ms as [|[k0 v0] ms IH]; simpl.
  - destruct (String.eqb_spec k' k); [by subst | done].
  - destruct (String.eqb_spec k0 k') as [->|Hk0]; simpl.
    + destruct (String.eqb_spec k' k); [by subst|].
      destruct (String.eqb_spec k' k); by subst.
    + by rewrite IH.
Qed.

Lemma Map_set_new (k v : string) (ms : list (string * string)) :
  k ∉ ms.*1 -> Map_set k v ms = ms ++ [(k, v)].
Proof.
  induction ms as [|[k0 v0] ms IH]; simpl; [done|].
  intros Hk. apply not_elem_of_cons in Hk as [Hne Hk].
  destruct (String.eqb_spec k0 k); [by subst|]. by rewrite IH.
Qed.

(** The mapping after [set(f, name f)] for every [f] of a list, in order *)
Lemma Map_set_all_get (name : string -> string) (l : list string)
    (ms : list (string * string)) (f : string) :
  f ∈ l \/ Map_get f ms = Some (name f) ->
  Map_get f (foldl (fun acc g => Map_set g (name g) acc) ms l) = Some (name f).
Proof.
  revert ms. induction l as [|g l IH]; intros ms H; simpl.
  - destruct H as [H|H]; [by apply elem_of_nil in H | done].
  - apply IH. destruct (decide (f = g)) as [->|Hne].
    + right. apply Map_get_set_eq.
    + destruct H as [H|H].
      * apply elem_of_cons in H as [H|H]; [done | by left].
      * right. by rewrite Map_get_set_ne.
Qed.

Lemma Map_set_all_other (name : string -> string) (l : list string)
    (ms : list (string * string)) (f : string) :
  f ∉ l ->
  Map_get f (foldl (fun acc g => Map_set g (name g) acc) ms l) = Map_get f ms.
Proof.
  revert ms. induction l as [|g l IH]; intros ms H; simpl; [done|].
  apply not_elem_of_cons in H as [Hne H]. rewrite IH; [|done].
  by apply Map_get_set_ne.
Qed.

Lemma Map_set_all_new (name : string -> string) (l : list string)
    (ms : list (string * string)) :
  NoDup (ms.*1 ++ l) ->
  foldl (fun acc g => Map_set g (name g) acc) ms l = ms ++ ((fun g => (g, name g)) <$> l).
Proof.
  revert ms. induction l as [|g l IH]; intros ms H; simpl.
  - by rewrite app_nil_r.
  - apply NoDup_app in H as (Hms & Hdisj & Hl).
    apply NoDup_cons in Hl as [Hg Hl].
    rewrite Map_set_new; [|intros Hin; apply (Hdisj g Hin); by left].
    rewrite IH; [by rewrite <- app_assoc|].
    rewrite fmap_app. simpl. rewrite <- app_assoc. simpl.
    apply NoDup_app. split; [done|]. split; [|by apply NoDup_cons].
    intros x Hx Hin. apply (Hdisj x Hx). set_solver.
Qed.

(** ** The landing of streams *)

Lemma take_padded_length (s : string) : take_padded (String.length s) s = s.
Proof. induction s as [|c s IH]; simpl; [reflexivity | by rewrite IH]. Qed.

Lemma drop_units_past (s : string) (n : nat) :
  drop_units (String.length s + n) s = EmptyString.
Proof. induction s as [|c s IH]; simpl; [by destruct n | apply IH]. Qed.

(** A write at the end of the file appends. *)
Lemma overlay_at_end (chunk content : string) :
  overlay (String.length content) chunk content = content +:+ chunk.
Proof.
  unfold overlay. by rewrite take_padded_length, drop_units_past, append_empty_r.
Qed.

Lemma chunks_text_app (a b : list string) :
  chunks_text (a ++ b) = chunks_text a +:+ chunks_text b.
Proof.
  induction a as [|c a IH]; [reflexivity|].
  change (chunks_text ((c :: a) ++ b)) with (c +:+ chunks_text (a ++ b)).
  change (chunks_text (c :: a)) with (c +:+ chunks_text a).
  by rewrite IH, append_assoc.
Qed.

Lemma chunks_text_snoc (a : list string) (c : string) :
  chunks_text (a ++ [c]) = chunks_text a +:+ c.
Proof.
  rewrite chunks_text_app. change (chunks_text [c]) with (c +:+ EmptyString).
  by rewrite append_empty_r.
Qed.

Lemma run_app (s1 s2 : list nat) (cfg : dir * list writer) :
  run (s1 ++ s2) cfg = run s2 (run s1 cfg).
Proof. apply foldl_app. Qed.

(** A schedule is a landing. *)
Lemma run_lands (schedule : list nat) (cfg : dir * list writer) :
  rtc land_step cfg (run schedule cfg).
Proof.
  revert cfg. induction schedule as [|i schedule IH]; intros cfg; [apply rtc_refl|].
  apply rtc_l with (land i cfg); [by exists i | apply IH].
Qed.

(** An open stream that is alone at work appends its chunks. *)
Lemma run_writes (i : nat) (path : string) (rest : list string) (content : string)
    (m : gmap string node) (ws : list writer) :
  ws !! i = Some (mkWriter path (OpenAt (String.length content)) rest) ->
  m !! path = Some (File content) ->
  run (replicate (length rest) i) (Some m, ws)
  = (Some (<[path := File (content +:+ chunks_text rest)]> m),
     <[i := mkWriter path (OpenAt (String.length (content +:+ chunks_text rest))) []]> ws).
Proof.
  revert content m ws. induction rest as [|chunk rest IH]; intros content m ws Hi Hm.
  - change (chunks_text []) with EmptyString. rewrite append_empty_r.
    cbn [length replicate run foldl]. by rewrite insert_id, list_insert_id.
  - change (run (replicate (length (chunk :: rest)) i) (Some m, ws))
      with (run (replicate (length rest) i) (land i (Some m, ws))).
    unfold land. rewrite Hi, Hm, overlay_at_end, <- length_append.
    rewrite (IH (content +:+ chunk)).
    + rewrite insert_insert_eq, list_insert_insert_eq.
      change (chunks_text (chunk :: rest)) with (chunk +:+ chunks_text rest).
      by rewrite append_assoc.
    + apply list_lookup_insert_eq. by eapply lookup_lt_Some.
    + apply lookup_insert_eq.
Qed.

(** A stream that is alone at work, from its creation to its last chunk:
    it leaves its file with the text of its chunks. *)
Lemma run_stream (i : nat) (path : string) (chunks : list string)
    (m : gmap string node) (ws : list writer) :
  ws !! i = Some (mkWriter path Unopened chunks) ->
  m !! path <> Some Directory ->
  run (replicate (S (length chunks)) i) (Some m, ws)
  = (Some (<[path := File (chunks_text chunks)]> m),
     <[i := mkWriter path (OpenAt (String.length (chunks_text chunks))) []]> ws).
Proof.
  intros Hi Hm.
  change (run (replicate (S (length chunks)) i) (Some m, ws))
    with (run (replicate (length chunks) i) (land i (Some m, ws))).
  assert (land i (Some m, ws)
          = (Some (<[path := File EmptyString]> m),
             <[i := mkWriter path (OpenAt (String.length EmptyString)) chunks]> ws)) as ->.
  { unfold land. rewrite Hi. by destruct (m !! path) as [[c|]|]. }
  rewrite (run_writes i path chunks EmptyString).
  - by rewrite insert_insert_eq, list_insert_insert_eq.
  - apply list_lookup_insert_eq. by eapply lookup_lt_Some.
  - apply lookup_insert_eq.
Qed.

Lemma all_files_written (m : gmap string node) (ss : list stream) :
  all_files m -> all_files (written_one_by_one m ss).
Proof.
  revert m. induction ss as [|s ss IH]; intros m H; [done|].
  apply IH. by apply all_files_insert.
Qed.

(** The streams land one by one, in the order of their creation. *)
Lemma run_one_by_one (ss : list stream) (rank : nat) (m : gmap string node)
    (ws : list writer) :
  all_files m ->
  (forall k s, ss !! k = Some s -> ws !! (rank + k) = Some (writer_of s)) ->
  exists ws',
    run (one_by_one rank ss) (Some m, ws) = (Some (written_one_by_one m ss), ws') /\
    length ws' = length ws /\
    (forall j, j < rank -> ws' !! j = ws !! j) /\
    (forall k s, ss !! k = Some s ->
       exists wr, ws' !! (rank + k) = Some wr /\ finished wr = true).
Proof.
  revert rank m ws. induction ss as [|s ss IH]; intros rank m ws Hall Hws.
  - exists ws. split; [done|]. split; [done|]. split; [done|]. by intros k s ?.
  - pose proof (Hws 0 s eq_refl) as H0. rewrite Nat.add_0_r in H0.
    cbn [one_by_one]. rewrite run_app.
    rewrite (run_stream rank (stream_path s) (stream_chunks s) m ws H0 (Hall _)).
    set (fin := mkWriter (stream_path s)
                  (OpenAt (String.length (chunks_text (stream_chunks s)))) []).
    destruct (IH (S rank) (<[stream_path s := File (chunks_text (stream_chunks s))]> m)
                (<[rank := fin]> ws)) as (ws' & Hrun & Hlen & Hlow & Hfin).
    { by apply all_files_insert. }
    { intros k s' Hk. rewrite list_lookup_insert_ne by lia.
      replace (S rank + k) with (rank + S k) by lia. by apply Hws. }
    exists ws'. split; [exact Hrun|]. split; [by rewrite Hlen, length_insert|].
    split.
    + intros j Hj. rewrite Hlow by lia. apply list_lookup_insert_ne. lia.
    + intros [|k] s' Hk.
      * exists fin. split; [|done]. rewrite Nat.add_0_r, Hlow by lia.
        apply list_lookup_insert_eq. by eapply lookup_lt_Some.
      * replace (rank + S k) with (S rank + k) by lia. by apply (Hfin k s').
Qed.

(** What the streams leave when they land one by one is a way for them to
    settle, and it is [written_one_by_one]. *)
Lemma drains_to_written (w : World) (m : gmap string node) :
  mongomodels w = Some m -> all_files m ->
  drains_to w = Some (written_one_by_one m (streams w)) /\
  settles_on w (drains_to w).
Proof.
  intros Hm Hall. unfold drains_to, settles_on. rewrite Hm.
  destruct (run_one_by_one (streams w) 0 m (writer_of <$> streams w) Hall)
    as (ws' & Hrun & Hlen & _ & Hfin).
  { intros k s Hk. change (0 + k) with k. by rewrite list_lookup_fmap, Hk. }
  split; [by rewrite Hrun|]. exists ws'. split.
  - rewrite Hrun. simpl. rewrite <- Hrun. apply run_lands.
  - apply forallb_forall. intros wr Hin. apply list_elem_of_In, list_elem_of_lookup in Hin as [j Hj].
    assert (j < length (streams w)) as Hlt.
    { apply lookup_lt_Some in Hj. by rewrite Hlen, length_fmap in Hj. }
    apply lookup_lt_is_Some_2 in Hlt as [s Hs].
    destruct (Hfin j s Hs) as (wr' & Hj' & Hf). simpl in Hj'. congruence.
Qed.


(** *** What holds while streams land *)

Lemma writer_at_other (ss : list stream) (m : gmap string node) (i j : nat)
    (s s' : stream) (wr : writer) (content : string) :
  ss !! i = Some s -> i <> j ->
  writer_at ss m j s' wr ->
  writer_at ss (<[stream_path s := File content]> m) j s' wr.
Proof.
  intros Hi Hne [Hpath Hat]. split; [exact Hpath|].
  destruct (writer_progress wr) as [|pos|]; [exact Hat | | exact Hat].
  destruct Hat as (written & content' & Hchunks & Hpos & Hfile & Halone).
  destruct (decide (stream_path s = stream_path s')) as [Heq|Hdiff].
  - exists written, content. split; [exact Hchunks|]. split; [exact Hpos|].
    split; [rewrite Heq; apply lookup_insert_eq|].
    intros Hal. destruct Hne. by apply (Hal i s).
  - exists written, content'. split; [exact Hchunks|]. split; [exact Hpos|].
    split; [by rewrite lookup_insert_ne | exact Halone].
Qed.

Lemma landing_start (m0 : gmap string node) (ss : list stream) :
  all_files m0 -> landing m0 ss (Some m0, writer_of <$> ss).
Proof.
  intros Hall. exists m0. split; [done|]. split; [done|].
  split; [apply length_fmap|]. split; [|done].
  intros i s Hi. exists (writer_of s). cbn [snd].
  split; [by rewrite list_lookup_fmap, Hi|]. by split.
Qed.

Lemma landing_land (m0 : gmap string node) (ss : list stream) (i : nat)
    (cfg : dir * list writer) :
  landing m0 ss cfg -> landing m0 ss (land i cfg).
Proof.
  destruct cfg as [d ws]. intros (m & Hd & Hall & Hlen & Hws & Hout).
  simpl in Hd, Hlen, Hws. subst d. unfold land.
  destruct (ws !! i) as [wr|] eqn:Ei; [|by exists m].
  assert (is_Some (ss !! i)) as [s Hs].
  { apply lookup_lt_is_Some_2. rewrite <- Hlen. by eapply lookup_lt_Some. }
  destruct (Hws i s Hs) as (wr' & Ei' & Hpath & Hat).
  assert (wr' = wr) as -> by congruence.
  destruct wr as [path pr rest]. simpl in Hpath, Hat. subst path.
  assert (i < length ws) as Hlt by (by eapply lookup_lt_Some).
  assert (forall k, (forall s0, s0 ∈ ss -> stream_path s0 <> k) -> k <> stream_path s) as Hk.
  { intros k Hno ->. apply (Hno s); [|done]. by eapply list_elem_of_lookup_2. }
  destruct pr as [|pos|]; [| |done].
  - (* the file is opened *)
    assert ((match m !! stream_path s with
             | Some Directory => (Some m, <[i := mkWriter (stream_path s) Broken rest]> ws)
             | _ => (Some (<[stream_path s := File EmptyString]> m),
                     <[i := mkWriter (stream_path s) (OpenAt 0) rest]> ws)
             end)
            = (Some (<[stream_path s := File EmptyString]> m),
               <[i := mkWriter (stream_path s) (OpenAt 0) rest]> ws)) as ->.
    { pose proof (Hall (stream_path s)). by destruct (m !! stream_path s) as [[c|]|]. }
    exists (<[stream_path s := File EmptyString]> m). cbn [fst snd]. split; [done|].
    split; [by apply all_files_insert|]. split; [by rewrite length_insert|]. split.
    + intros j s' Hj. destruct (decide (i = j)) as [<-|Hne].
      * assert (s' = s) as -> by congruence.
        eexists. split; [by apply list_lookup_insert_eq|]. split; [done|].
        exists [], EmptyString. split; [done|]. split; [done|].
        split; [apply lookup_insert_eq | done].
      * destruct (Hws j s' Hj) as (wr & Hwr & Hat').
        exists wr. split; [by rewrite list_lookup_insert_ne|].
        by apply (writer_at_other ss m i j s).
    + intros k Hno. rewrite lookup_insert_ne; [by apply Hout|].
      intros Heq. by apply (Hk k Hno).
  - destruct rest as [|chunk rest]; [by exists m|].
    destruct Hat as (written & content & Hchunks & Hpos & Hfile & Halone).
    simpl in Hchunks. rewrite Hfile.
    exists (<[stream_path s := File (overlay pos chunk content)]> m). cbn [fst snd].
    split; [done|].
    split; [by apply all_files_insert|]. split; [by rewrite length_insert|]. split.
    + intros j s' Hj. destruct (decide (i = j)) as [<-|Hne].
      * assert (s' = s) as -> by congruence.
        eexists. split; [by apply list_lookup_insert_eq|]. split; [done|].
        exists (written ++ [chunk]), (overlay pos chunk content).
        split; [by rewrite <- app_assoc|].
        split; [by rewrite chunks_text_snoc, length_append, Hpos|].
        split; [apply lookup_insert_eq|].
        intros Hal. rewrite chunks_text_snoc, <- (Halone Hal).
        rewrite Hpos, <- (Halone Hal). apply overlay_at_end.
      * destruct (Hws j s' Hj) as (wr & Hwr & Hat').
        exists wr. split; [by rewrite list_lookup_insert_ne|].
        by apply (writer_at_other ss m i j s).
    + intros k Hno. rewrite lookup_insert_ne; [by apply Hout|].
      intros Heq. by apply (Hk k Hno).
Qed.

Lemma landing_rtc (m0 : gmap string node) (ss : list stream)
    (cfg cfg' : dir * list writer) :
  landing m0 ss cfg -> rtc land_step cfg cfg' -> landing m0 ss cfg'.
Proof.
  intros H Hsteps. induction Hsteps as [|cfg1 cfg2 cfg3 [i ->] _ IH]; [exact H|].
  by apply IH, landing_land.
Qed.

(** Whenever the schema directory is looked at after streams were created
    on it among regular files, it holds regular files only, and what is on
    no stream's path is as it was. *)
Lemma lands_on_files (w : World) (m0 : gmap string node) (d : dir) :
  mongomodels w = Some m0 -> all_files m0 ->
  lands_on w d ->
  exists m, d = Some m /\ all_files m /\
    forall k, (forall s, s ∈ streams w -> stream_path s <> k) -> m !! k = m0 !! k.
Proof.
  intros Hm Hall [ws Hsteps]. rewrite Hm in Hsteps.
  apply (landing_rtc m0 (streams w)) in Hsteps as (m & Hd & Hfiles & _ & _ & Hout);
    [|by apply landing_start].
  by exists m.
Qed.

(** Once every stream has finished, every stream has its file, and the
    file of a stream that is alone on its path holds the text of its
    chunks. *)
Lemma settles_on_files (w : World) (m0 : gmap string node) (d : dir) :
  mongomodels w = Some m0 -> all_files m0 ->
  settles_on w d ->
  exists m, d = Some m /\ all_files m /\
    (forall k, (forall s, s ∈ streams w -> stream_path s <> k) -> m !! k = m0 !! k) /\
    (forall i s, streams w !! i = Some s ->
       exists content, m !! stream_path s = Some (File content) /\
         (alone (streams w) i (stream_path s) ->
          content = chunks_text (stream_chunks s))).
Proof.
  intros Hm Hall (ws & Hsteps & Hfin). rewrite Hm in Hsteps.
  apply (landing_rtc m0 (streams w)) in Hsteps as (m & Hd & Hfiles & _ & Hws & Hout);
    [|by apply landing_start].
  simpl in Hd, Hws. exists m. split; [done|]. split; [done|]. split; [done|].
  intros i s Hs. destruct (Hws i s Hs) as (wr & Hwr & _ & Hat).
  assert (finished wr = true) as Hf.
  { rewrite forallb_forall in Hfin. apply Hfin, list_elem_of_In.
    by eapply list_elem_of_lookup_2. }
  unfold finished in Hf. destruct (writer_progress wr) as [|pos|]; [done| |done].
  destruct (writer_rest wr); [|done].
  destruct Hat as (written & content & Hchunks & _ & Hfile & Halone).
  rewrite app_nil_r in Hchunks. subst written. by exists content.
Qed.

(** On a schema directory that does not exist no stream opens its file. *)
Lemma lands_on_absent (w : World) (d : dir) :
  mongomodels w = None -> lands_on w d -> d = None.
Proof.
  intros Hm [ws Hsteps]. rewrite Hm in Hsteps.
  remember (None, writer_of <$> streams w) as cfg eqn:Ecfg.
  assert (cfg.1 = None) as Hnone by (by subst cfg). clear Ecfg.
  remember (d, ws) as cfg' eqn:Ecfg'.
  assert (cfg'.1 = None -> d = None) as Hd by (by subst cfg'). clear Ecfg'.
  apply Hd. clear Hd.
  induction Hsteps as [|cfg1 cfg2 cfg3 [i ->] _ IH]; [exact Hnone|].
  apply IH. destruct cfg1 as [d1 ws1]. simpl in Hnone. subst d1. unfold land.
  destruct (ws1 !! i) as [[path [|pos|] [|chunk rest]]|]; reflexivity.
Qed.

(** Whenever the schema directory is looked at, an entry of it was there
    when the streams were created, or it is the file of one of them. *)
Lemma lands_on_bounded (w : World) (d : dir) (k : string) :
  no_subdirectory (mongomodels w) -> lands_on w d ->
  is_Some (default ∅ d !! k) ->
  is_Some (default ∅ (mongomodels w) !! k) \/ exists s, s ∈ streams w /\ stream_path s = k.
Proof.
  intros Hno Hd Hk. destruct (mongomodels w) as [m0|] eqn:Hm.
  - destruct (lands_on_files w m0 d Hm Hno Hd) as (m & -> & _ & Hout).
    destruct (decide (Exists (fun s => stream_path s = k) (streams w))) as [He|Hn].
    + right. by apply Exists_exists in He.
    + left. simpl in Hk |- *. rewrite <- Hout; [done|].
      intros s Hs Heq. apply Hn, Exists_exists. by exists s.
  - rewrite (lands_on_absent w d Hm Hd) in Hk. by left.
Qed.

Lemma settles_on_lands_on (w : World) (d : dir) : settles_on w d -> lands_on w d.
Proof. intros (ws & Hsteps & _). by exists ws. Qed.

Lemma settles_on_alone (w : World) (m0 : gmap string node) (d : dir) (i : nat) (s : stream) :
  mongomodels w = Some m0 -> all_files m0 ->
  settles_on w d ->
  streams w !! i = Some s -> alone (streams w) i (stream_path s) ->
  exists m, d = Some m /\
    m !! stream_path s = Some (File (chunks_text (stream_chunks s))).
Proof.
  intros Hm Hall Hd Hs Halone.
  destruct (settles_on_files w m0 d Hm Hall Hd) as (m & -> & _ & _ & Hfiles).
  destruct (Hfiles i s Hs) as (content & Hfile & Htext).
  exists m. split; [done|]. by rewrite Hfile, (Htext Halone).
Qed.

(** ** Schema generation: [generateMongoSchemas] *)

Lemma alter_last {A} (f : A -> A) (l : list A) (x : A) :
  alter f (length l) (l ++ [x]) = l ++ [f x].
Proof. replace (length l) with (length l + 0) by lia. by rewrite alter_app_r. Qed.

(** The stream of lines 105-121: it is created and given its three chunks.
    Nothing is thrown, and nothing has reached the disk when the last
    [write] returns. *)
Lemma write_schema_file (k a b c : string) (w : World) :
  (model ← createWriteStream k;
   stream_write model a ;;
   stream_write model b ;;
   stream_write model c) w
  = (Normal tt, with_streams (streams w ++ [mkStream k [a; b; c]]) w).
Proof.
  destruct w as [mo ms df mm co cl ss].
  unfold mbind, Eff_bind, createWriteStream, stream_write, modify, with_streams.
  cbn [streams models modelschemas datafiles mongomodels console collections].
  by rewrite !alter_last.
Qed.

(** Lines 100-104: the schema directory exists afterwards, whatever
    [mkdirSync] did. *)
Lemma ensure_mongomodels (w : World) :
  try_catch (in_mongomodels mkdirSync) (mret tt) w
  = (Normal tt, with_mongomodels (Some (default ∅ (mongomodels w))) w).
Proof.
  by destruct w as [mo ms df [m|] co cl ss].
Qed.

Section Generation.

Variable database : Database.
Variable datatypes : string -> option string.

#[local] Abbreviation describe f := (query_describe database ("describe " +:+ table_of f)).
#[local] Abbreviation name f := (modelname_of (table_of f)).
#[local] Abbreviation generate1 := (generate database datatypes).
#[local] Abbreviation generation := (generateMongoSchemas database datatypes).
#[local] Abbreviation text_of f definition :=
  (schema_text (name f) (modeldefinition_of datatypes definition)).
#[local] Abbreviation recorded l ms :=
  (foldl (fun acc g => Map_set g (name g) acc) ms l).

(** The three chunks of lines 106, 120 and 121 make up the text of the
    schema file. *)
Lemma schema_text_parts (modelname : string) (definition : list Column) :
  chunks_text (stream_chunks (schema_stream datatypes modelname definition))
  = schema_text modelname (modeldefinition_of datatypes definition).
Proof.
  unfold schema_stream, chunks_text. cbn [stream_chunks fold_right].
  unfold schema_head, schema_body, schema_tail, schema_text.
  rewrite append_empty_r, !append_assoc. reflexivity.
Qed.

Lemma generate_unfold (f : string) (w : World) :
  generate1 f w =
  match describe f with
  | Rejected r => (Throw (QueryError r), w)
  | Resolved definition =>
      (Normal tt,
       with_streams (streams w ++ [schema_stream datatypes (name f) definition])
         (with_mongomodels (Some (default ∅ (mongomodels w)))
            (with_modelschemas (Map_set f (name f) (modelschemas w)) w)))
  end.
Proof.
  unfold generate.
  destruct (describe f) as [definition|r]; [|by apply bind_throw].
  erewrite bind_normal; [|reflexivity].
  erewrite bind_normal; [|reflexivity].
  erewrite bind_normal; [|apply ensure_mongomodels].
  rewrite write_schema_file. reflexivity.
Qed.

Lemma clear_mongomodels_unfold (w : World) :
  clear_mongomodels w =
  (Normal tt,
   with_mongomodels
     match mongomodels w with
     | None => None
     | Some m => (for_of (map_to_list m).*1 unlinkSync (Some m)).2
     end w).
Proof.
  unfold clear_mongomodels, try_catch, mbind, Eff_bind, in_mongomodels at 1, readdirSync.
  destruct (mongomodels w) as [m|] eqn:E.
  - rewrite in_mongomodels_for_of. unfold in_mongomodels.
    change (mongomodels (with_mongomodels (Some m) w)) with (Some m).
    by destruct (for_of (map_to_list m).*1 unlinkSync (Some m)) as [[[]|e] d].
  - by rewrite <- E, with_mongomodels_id.
Qed.

Lemma clear_mongomodels_ok (w : World) :
  no_subdirectory (mongomodels w) ->
  clear_mongomodels w =
  (Normal tt, with_mongomodels (match mongomodels w with None => None | Some _ => Some ∅ end) w).
Proof.
  rewrite clear_mongomodels_unfold. destruct (mongomodels w) as [m|]; [|done].
  intros Hf. by rewrite unlink_everything_files.
Qed.

(** The clean-up touches the schema directory and nothing else. *)
Lemma clear_mongomodels_frame (w : World) :
  (clear_mongomodels w).2 = with_mongomodels (mongomodels (clear_mongomodels w).2) w.
Proof. rewrite clear_mongomodels_unfold. by destruct w. Qed.

Lemma generation_unfold (w : World) :
  generation w =
  match datafiles w with
  | None => (Throw (FsError ENOENT EmptyString), w)
  | Some m =>
      match (map_to_list m).*1 with
      | [] => (Throw (Error "Empty directory!"), w)
      | f :: fs => for_of (f :: fs) generate1 (clear_mongomodels w).2
      end
  end.
Proof.
  unfold generateMongoSchemas, mbind at 1, Eff_bind at 1, in_datafiles, readdirSync.
  destruct (datafiles w) as [m|] eqn:E; rewrite <- E, with_datafiles_id; [|reflexivity].
  destruct ((map_to_list m).*1) as [|f fs]; [reflexivity|].
  change (length (f :: fs) <? 1)%nat with false. cbv iota.
  unfold mbind at 1, Eff_bind at 1. by rewrite clear_mongomodels_unfold.
Qed.

(** The streams of a list of artifacts whose tables are all described: one
    for every artifact, in order. *)
Lemma streams_of_cons (f : string) (l : list string) (definition : list Column) :
  describe f = Resolved definition ->
  streams_of database datatypes (f :: l)
  = schema_stream datatypes (name f) definition :: streams_of database datatypes l.
Proof. intros H. unfold streams_of. cbn [omap list_omap]. by rewrite H. Qed.



Lemma elem_of_streams_of (l : list string) (s : stream) :
  s ∈ streams_of database datatypes l <->
  exists g definition, g ∈ l /\ describe g = Resolved definition /\
                       s = schema_stream datatypes (name g) definition.
Proof.
  unfold streams_of. rewrite list_elem_of_omap. split.
  - intros (g & Hg & Hs). destruct (describe g) as [definition|r] eqn:E; [|done].
    injection Hs as <-. by exists g, definition.
  - intros (g & definition & Hg & Hdef & ->). exists g. by rewrite Hdef.
Qed.

Lemma streams_of_paths (l : list string) :
  (forall g, g ∈ l -> exists definition, describe g = Resolved definition) ->
  stream_path <$> streams_of database datatypes l = (fun g => name g +:+ ".ts") <$> l.
Proof.
  induction l as [|f l IH]; intros Hq; [done|].
  destruct (Hq f) as [definition Hdef]; [by left|].
  rewrite (streams_of_cons f l definition Hdef). csimpl. f_equal.
  apply IH. intros g Hg. apply Hq. by right.
Qed.

(** The loop of lines 91-123 returns when every description is answered,
    whatever stands in the schema directory: one [set] and one stream for
    every artifact, in order, and a schema directory that exists. *)
Lemma generate_loop_returns (l : list string) (w : World) :
  (forall g, g ∈ l -> exists definition, describe g = Resolved definition) ->
  for_of l generate1 w =
  (Normal tt,
   with_streams (streams w ++ streams_of database datatypes l)
     (with_mongomodels
        match l with [] => mongomodels w | _ :: _ => Some (default ∅ (mongomodels w)) end
        (with_modelschemas (recorded l (modelschemas w)) w))).
Proof.
  revert w. induction l as [|f l IH]; intros w Hq.
  - destruct w. unfold with_streams, with_mongomodels, with_modelschemas. simpl.
    by rewrite app_nil_r.
  - destruct (Hq f) as [definition Hdef]; [by left|].
    cbn [for_of]. erewrite bind_normal; [|by rewrite generate_unfold, Hdef].
    rewrite IH; [|intros g Hg; apply Hq; by right].
    rewrite (streams_of_cons f l definition Hdef).
    destruct w as [mo ms df mm co cl ss].
    unfold with_streams, with_mongomodels, with_modelschemas.
    cbn [streams models modelschemas datafiles mongomodels console collections foldl].
    rewrite <- app_assoc. by destruct l.
Qed.

(** Once the schema directory exists, the loop neither reads nor changes
    its content: a step that a stream takes between two iterations can as
    well be taken after the loop. *)
Lemma generate_on_existing (f : string) (w : World) (m : gmap string node) :
  mongomodels w = Some m ->
  mongomodels (generate1 f w).2 = Some m /\
  forall m', generate1 f (with_mongomodels (Some m') w)
             = ((generate1 f w).1, with_mongomodels (Some m') (generate1 f w).2).
Proof.
  intros Hm. rewrite generate_unfold. split.
  - destruct (describe f); [|exact Hm]. simpl. by rewrite Hm.
  - intros m'. rewrite generate_unfold. destruct (describe f); [|reflexivity].
    destruct w. simpl in Hm. subst. reflexivity.
Qed.

Lemma generate_loop_on_existing (l : list string) (w : World) (m : gmap string node) :
  mongomodels w = Some m ->
  mongomodels (for_of l generate1 w).2 = Some m /\
  forall m', for_of l generate1 (with_mongomodels (Some m') w)
             = ((for_of l generate1 w).1, with_mongomodels (Some m') (for_of l generate1 w).2).
Proof.
  revert w. induction l as [|f l IH]; intros w Hm; [by split|].
  destruct (generate_on_existing f w m Hm) as [H1 H2].
  cbn [for_of]. unfold mbind, Eff_bind. split.
  - destruct (generate1 f w) as [[[]|e] w1]; [apply (IH w1 H1) | exact H1].
  - intros m'. rewrite H2. destruct (generate1 f w) as [[[]|e] w1]; [|reflexivity].
    apply (IH w1 H1).
Qed.

(** It returns only when every description is answered. *)
Lemma generate_loop_resolved (l : list string) (w w' : World) :
  for_of l generate1 w = (Normal tt, w') ->
  forall g, g ∈ l -> exists definition, describe g = Resolved definition.
Proof.
  revert w. induction l as [|f l IH]; intros w H g Hg; [by apply elem_of_nil in Hg|].
  simpl in H. apply bind_normal_inv in H as ([] & w1 & Hf & Hl).
  apply elem_of_cons in Hg as [->|Hg]; [|by eapply IH].
  rewrite generate_unfold in Hf. destruct (describe f); [by eexists | discriminate].
Qed.

(** It throws the rejection of the first description that is not answered,
    and nothing else. *)
Lemma generate_loop_throw (l : list string) (w w' : World) (e : exn) :
  for_of l generate1 w = (Throw e, w') ->
  exists f reason, f ∈ l /\ describe f = Rejected reason /\ e = QueryError reason.
Proof.
  revert w. induction l as [|f l IH]; intros w H; simpl in H; [discriminate|].
  unfold mbind, Eff_bind in H. rewrite generate_unfold in H.
  destruct (describe f) as [definition|reason] eqn:Eq.
  - apply IH in H as (g & r & ? & ? & ?). exists g, r. split; [by right | done].
  - injection H as <- _. exists f, reason. split; [by left | done].
Qed.

Lemma generate_loop_inv (l : list string) (w w' : World) :
  for_of l generate1 w = (Normal tt, w') ->
  modelschemas w' = recorded l (modelschemas w) /\
  datafiles w' = datafiles w.
Proof.
  intros H. pose proof (generate_loop_resolved _ _ _ H) as Hq.
  rewrite (generate_loop_returns l w Hq) in H. injection H as <-. by destruct w.
Qed.

(** Generation when it returns: the mapping has one [set] for every
    artifact, one stream has been created for every artifact, in the order
    of the listing, and the schema directory exists, with what the clean-up
    has left of it. *)
Lemma generation_returns (w : World) (m : gmap string node) :
  datafiles w = Some m -> m <> ∅ ->
  (forall g, is_Some (m !! g) -> exists d, describe g = Resolved d) ->
  generation w =
  (Normal tt,
   with_streams (streams w ++ streams_of database datatypes (map_to_list m).*1)
     (with_mongomodels (Some (default ∅ (mongomodels (clear_mongomodels w).2)))
        (with_modelschemas (recorded (map_to_list m).*1 (modelschemas w)) w))).
Proof.
  intros Hm Hne Hq. rewrite generation_unfold, Hm.
  destruct ((map_to_list m).*1) as [|f fs] eqn:E.
  { apply fmap_nil_inv, map_to_list_empty_iff in E. by destruct Hne. }
  rewrite generate_loop_returns.
  - generalize (clear_mongomodels_frame w). generalize ((clear_mongomodels w).2).
    intros w0 Hw0. destruct w, w0. unfold with_mongomodels in Hw0.
    cbn [streams models modelschemas datafiles mongomodels console collections] in Hw0.
    by injection Hw0 as -> -> -> -> -> ->.
  - intros g Hg. apply Hq, readdir_is_Some. by rewrite E.
Qed.

Lemma generation_resolved (w w' : World) (m : gmap string node) :
  generation w = (Normal tt, w') -> datafiles w = Some m ->
  m <> ∅ /\ forall g, is_Some (m !! g) -> exists d, describe g = Resolved d.
Proof.
  intros H Hm. rewrite generation_unfold, Hm in H.
  destruct ((map_to_list m).*1) as [|f fs] eqn:E; [discriminate|]. split.
  - intros ->. by rewrite map_to_list_empty in E.
  - intros g Hg%readdir_all. rewrite E in Hg. by apply (generate_loop_resolved _ _ _ H).
Qed.

(** Among regular files the clean-up empties the schema directory. *)
Lemma cleared_is_empty (w : World) :
  no_subdirectory (mongomodels w) ->
  default ∅ (mongomodels (clear_mongomodels w).2) = ∅.
Proof.
  intros H. rewrite (clear_mongomodels_ok w H). simpl. by destruct (mongomodels w).
Qed.

Lemma generation_normal_inv (w w' : World) (m : gmap string node) :
  generation w = (Normal tt, w') -> datafiles w = Some m ->
  modelschemas w' = recorded (map_to_list m).*1 (modelschemas w) /\
  datafiles w' = Some m.
Proof.
  intros H Hm. destruct (generation_resolved _ _ _ H Hm) as [Hne Hq].
  rewrite (generation_returns w m Hm Hne Hq) in H. injection H as <-.
  by destruct w.
Qed.

Lemma generation_ok (w : World) (m : gmap string node) :
  datafiles w = Some m -> m <> ∅ ->
  (forall g, is_Some (m !! g) -> exists d, describe g = Resolved d) ->
  no_subdirectory (mongomodels w) ->
  exists w', generation w = (Normal tt, w').
Proof.
  intros Hm Hne Hq _. eexists. by apply (generation_returns w m).
Qed.

(** On an instance whose mapping is still empty, generation leaves exactly
    one entry for every staged artifact, in the order of the listing. *)
Lemma generation_on_new_mapping (w w' : World) (m : gmap string node) :
  modelschemas w = [] -> generation w = (Normal tt, w') -> datafiles w = Some m ->
  modelschemas w' = (fun g => (g, name g)) <$> (map_to_list m).*1.
Proof.
  intros Hnew H Hm. destruct (generation_normal_inv _ _ _ H Hm) as [-> _].
  rewrite Hnew, Map_set_all_new; [done|]. apply NoDup_fst_map_to_list.
Qed.

(** An entry for an artifact that is no longer staged stays in the mapping:
    nothing in the source removes an entry. *)
Lemma generation_keeps_stale_entries (w w' : World) (m : gmap string node) (k : string) :
  generation w = (Normal tt, w') -> datafiles w = Some m -> m !! k = None ->
  Map_get k (modelschemas w') = Map_get k (modelschemas w).
Proof.
  intros H Hm Hk. destruct (generation_normal_inv _ _ _ H Hm) as [-> _].
  apply Map_set_all_other. intros Hin%readdir_is_Some. rewrite Hk in Hin.
  by destruct Hin.
Qed.

(** What generation leaves on an instance without pending stream, among
    regular files: a schema directory that its synchronous calls have
    emptied, and the streams of the staged artifacts on it. *)
Lemma generation_leaves (w w' : World) (m : gmap string node) :
  generation w = (Normal tt, w') -> datafiles w = Some m ->
  streams w = [] -> no_subdirectory (mongomodels w) ->
  mongomodels w' = Some ∅ /\
  streams w' = streams_of database datatypes (map_to_list m).*1 /\
  forall g, is_Some (m !! g) -> exists d, describe g = Resolved d.
Proof.
  intros H Hm Hss Hno. destruct (generation_resolved _ _ _ H Hm) as [Hne Hq].
  rewrite (generation_returns w m Hm Hne Hq) in H. injection H as <-.
  rewrite Hss, (cleared_is_empty w Hno). by destruct w.
Qed.

(** C4. The model name that lines 94-97 derive from a table name is the one
    of the specification's rule: underscores removed, first character
    capitalized. Generation records it for every staged artifact: it
    returns when every description is answered and nothing but regular
    files stands in the schema directory, and whenever it has returned the
    mapping gives every staged artifact the name derived from the
    artifact's table name. The table name is the artifact's name up to its
    first dot, which for [<table>.json] is [<table>]. The artifact of
    [order_items] gets [Orderitems]. *)
Theorem artifact_model_name :
  (forall table, modelname_of table = spec_model_name table) /\
  (forall (w : World) (m : gmap string node),
     datafiles w = Some m -> m <> ∅ ->
     (forall g, is_Some (m !! g) -> exists d, describe g = Resolved d) ->
     no_subdirectory (mongomodels w) ->
     exists w', generation w = (Normal tt, w')) /\
  (forall (w w' : World) (m : gmap string node) (f : string),
     generation w = (Normal tt, w') -> datafiles w = Some m -> is_Some (m !! f) ->
     Map_get f (modelschemas w') = Some (spec_model_name (table_of f))) /\
  (forall t, includes "." t = false -> table_of (t +:+ ".json") = t) /\
  name "order_items.json" = "Orderitems".
Proof.
  split; [apply modelname_of_spec|]. split; [apply generation_ok|].
  split; [|split; [apply table_of_artifact | reflexivity]].
  intros w w' m f H Hm Hf. destruct (generation_normal_inv _ _ _ H Hm) as [-> _].
  rewrite <- modelname_of_spec. apply (Map_set_all_get (fun g => name g)).
  left. by apply readdir_all.
Qed.

(** C6. Generation in front of an empty staging directory throws the
    error [Empty directory!] and leaves everything as it was: the schema
    files of an earlier run and the mapping included. *)
Theorem empty_staging_is_refused (w : World) :
  datafiles w = Some ∅ ->
  generation w = (Throw (Error "Empty directory!"), w).
Proof. intros H. by rewrite generation_unfold, H, map_to_list_empty. Qed.

(** A column whose base type has no entry in the table raises nothing: its
    type is written as the text [undefined], and generation returns as it
    does for any other column, that is whenever every description is
    answered and nothing but regular files stands in the schema directory. *)
Lemma unmapped_type_is_written_undefined (w : World) (m : gmap string node)
    (f : string) (definition : list Column) (field : Column) :
  datafiles w = Some m -> is_Some (m !! f) ->
  describe f = Resolved definition -> field ∈ definition ->
  datatypes (datatype_of field) = None ->
  (forall g, is_Some (m !! g) -> exists d, describe g = Resolved d) ->
  no_subdirectory (mongomodels w) ->
  type_text datatypes field = "undefined" /\
  exists w', generation w = (Normal tt, w').
Proof.
  intros Hm Hf _ _ Hnone Hq Hw. split.
  - unfold type_text. by rewrite Hnone.
  - apply (generation_ok w m); try done. intros ->. rewrite lookup_empty in Hf.
    by destruct Hf.
Qed.


End Generation.

(** ** The naming rule and the field descriptor *)

(** C3, as the code has it. The rule joins the segments without touching
    their case: [user_profile] becomes [Userprofile], [orders] becomes
    [Orders], and a name without underscore only has its first character
    capitalized. *)
Theorem name_normalization :
  modelname_of "user_profile" = "Userprofile" /\
  modelname_of "orders" = "Orders" /\
  forall name, includes "_" name = false -> modelname_of name = capitalize name.
Proof.
  split; [reflexivity|]. split; [reflexivity|].
  intros name H. by rewrite modelname_of_spec; unfold spec_model_name; rewrite remove_separators_id.
Qed.

Lemma name_normalization_witness :
  includes "_" "orders" = false /\ modelname_of "orders" = capitalize "orders".
Proof.
  split; [reflexivity|]. apply (proj2 (proj2 name_normalization)). reflexivity.
Defined.

(** C3 as stated does not hold: the segment after an underscore keeps its
    lower-case initial. *)
Lemma user_profile_is_not_pascal_case :
  modelname_of "user_profile" <> "UserProfile".
Proof. discriminate. Qed.

Section Descriptor.

Variable datatypes : string -> option string.

(** C5, as the code has it. The descriptor always ends with a default
    entry: [Date.now] for the sentinel [CURRENT_TIMESTAMP], the literal
    itself for any other literal default, and [null] for a column without
    default. *)
Theorem default_of_column (field : Column) :
  (Default field = Some "CURRENT_TIMESTAMP" ->
   ends_with (default_entry "Date.now") (field_text datatypes field)) /\
  (forall literal, Default field = Some literal -> literal <> "CURRENT_TIMESTAMP" ->
   ends_with (default_entry literal) (field_text datatypes field)) /\
  (Default field = None ->
   ends_with (default_entry "null") (field_text datatypes field)).
Proof.
  assert (ends_with (default_entry (default_text field)) (field_text datatypes field)) as H.
  { exists (LF +:+ indent 20 +:+ Field field +:+ ": {" +:+
            LF +:+ indent 28 +:+ "type: " +:+ type_text datatypes field +:+ "," +:+
            LF +:+ indent 28 +:+ "required: " +:+ required_text field +:+ "," +:+
            LF +:+ indent 28).
    unfold field_text, default_entry. by rewrite !append_assoc. }
  unfold default_text in H. split; [|split].
  - intros E. by rewrite E in H.
  - intros literal E Hne. rewrite E in H.
    by destruct (String.eqb_spec literal "CURRENT_TIMESTAMP").
  - intros E. by rewrite E in H.
Qed.

End Descriptor.

Lemma default_of_column_witness :
  Default Sample.email = None /\
  ends_with (default_entry "null") (field_text Sample.datatypes Sample.email).
Proof.
  split; [reflexivity|].
  apply (proj2 (proj2 (default_of_column Sample.datatypes Sample.email))). reflexivity.
Defined.

(** C5 as stated does not hold: a column without default still gets a
    default entry in its descriptor. *)
Lemma absent_default_is_written_null :
  ~ (forall (datatypes : string -> option string) (field : Column),
       Default field = None ->
       is_substring "default:" (field_text datatypes field) = false).
Proof.
  intros H. specialize (H Sample.datatypes Sample.email eq_refl).
  vm_compute in H. discriminate H.
Qed.

(** ** Sample runs of schema generation *)

Lemma artifact_model_name_witness :
  let tables := [Sample.users; Sample.order_items] in
  Map_get "order_items.json" (modelschemas (Sample.generated tables))
  = Some (spec_model_name "order_items").
Proof.
  intros tables.
  apply (proj1 (proj2 (proj2 (artifact_model_name (Sample.mysql tables) Sample.datatypes)))
           (Sample.staged tables) (Sample.generated tables)
           (default ∅ (datafiles (Sample.staged tables))) "order_items.json").
  - vm_compute. reflexivity.
  - vm_compute. reflexivity.
  - vm_compute. by eexists.
Defined.

Lemma empty_staging_is_refused_witness :
  generateMongoSchemas (Sample.mysql []) Sample.datatypes Sample.unstaged
  = (Throw (Error "Empty directory!"), Sample.unstaged).
Proof. apply empty_staging_is_refused. reflexivity. Defined.

(** An absent staging directory is refused as well, by [readdirSync]. *)
Lemma absent_staging_is_refused (database : Database)
    (datatypes : string -> option string) (w : World) :
  datafiles w = None ->
  generateMongoSchemas database datatypes w = (Throw (FsError ENOENT EmptyString), w).
Proof. intros H. by rewrite generation_unfold, H. Qed.

Lemma sample_descriptions (tables : list Sample.table) (l : list string) :
  (map_to_list (default ∅ (datafiles (Sample.staged tables)))).*1 = l ->
  forallb (fun g => match query_describe (Sample.mysql tables) ("describe " +:+ table_of g) with
                    | Resolved _ => true
                    | Rejected _ => false
                    end) l = true ->
  forall g, is_Some (default ∅ (datafiles (Sample.staged tables)) !! g) ->
            exists d, query_describe (Sample.mysql tables) ("describe " +:+ table_of g) = Resolved d.
Proof.
  intros Hl Hall g Hg%readdir_all. rewrite Hl in Hg.
  rewrite forallb_forall in Hall. apply list_elem_of_In, Hall in Hg.
  destruct (query_describe _ _); [by eexists | discriminate].
Qed.

Lemma unmapped_type_is_written_undefined_witness :
  let tables := [Sample.shapes] in
  type_text Sample.datatypes (mkColumn "outline" "geometry" "NO" None) = "undefined" /\
  exists w', generateMongoSchemas (Sample.mysql tables) Sample.datatypes (Sample.staged tables)
             = (Normal tt, w').
Proof.
  intros tables.
  apply (unmapped_type_is_written_undefined (Sample.mysql tables) Sample.datatypes
           (Sample.staged tables) (default ∅ (datafiles (Sample.staged tables)))
           "shapes.json" (Sample.table_columns Sample.shapes)).
  - vm_compute. reflexivity.
  - vm_compute. by eexists.
  - reflexivity.
  - by left.
  - reflexivity.
  - apply (sample_descriptions tables ["shapes.json"]); vm_compute; reflexivity.
  - exact I.
Defined.

(** No error is surfaced for an unmapped type: the table [shapes] has a
    column of a type without entry, and generation returns. *)
Lemma unmapped_type_raises_nothing :
  ~ (forall (database : Database) (datatypes : string -> option string) (w : World)
            (m : gmap string node) (f : string) (definition : list Column) (field : Column),
       datafiles w = Some m -> is_Some (m !! f) ->
       query_describe database ("describe " +:+ table_of f) = Resolved definition ->
       field ∈ definition ->
       datatypes (datatype_of field) = None ->
       exists e w', generateMongoSchemas database datatypes w = (Throw e, w')).
Proof.
  intros H.
  destruct (H (Sample.mysql [Sample.shapes]) Sample.datatypes (Sample.staged [Sample.shapes])
              (default ∅ (datafiles (Sample.staged [Sample.shapes])))
              "shapes.json" (Sample.table_columns Sample.shapes)
              (mkColumn "outline" "geometry" "NO" None)) as (e & w' & Hrun).
  - vm_compute. reflexivity.
  - vm_compute. by eexists.
  - reflexivity.
  - by left.
  - reflexivity.
  - vm_compute in Hrun. discriminate Hrun.
Qed.



(** ** Loading: [populateMongo] *)

Section Loading.

Variable JSON_parse : string -> option json.

Lemma load_console_only (datafile : string * string) (w : World) :
  exists lines, (load JSON_parse datafile w).2 = with_console (console w ++ lines) w.
Proof.
  unfold load, mbind, Eff_bind, in_datafiles, readFileSync, console_log, modify, throw.
  destruct (datafiles w) as [m|] eqn:E.
  - destruct (m !! datafile.1) as [[text|]|]; rewrite <- E, with_datafiles_id.
    + destruct (JSON_parse text); [by eexists | exists []].
      rewrite app_nil_r. by destruct w.
    + exists []. rewrite app_nil_r. by destruct w.
    + exists []. rewrite app_nil_r. by destruct w.
  - rewrite <- E, with_datafiles_id. exists []. rewrite app_nil_r. by destruct w.
Qed.

Lemma load_loop_console_only (l : list (string * string)) (w : World) :
  exists lines, (for_of l (load JSON_parse) w).2 = with_console (console w ++ lines) w.
Proof.
  revert w. induction l as [|datafile l IH]; intros w; simpl.
  - exists []. rewrite app_nil_r. by destruct w.
  - destruct (load_console_only datafile w) as [lines1 H1].
    unfold mbind, Eff_bind. destruct (load JSON_parse datafile w) as [[[]|e] w1]; simpl in *.
    + destruct (IH w1) as [lines2 H2]. rewrite H2, H1. simpl.
      exists (lines1 ++ lines2). by rewrite app_assoc.
    + by exists lines1.
Qed.

(** Whatever the mapping and the artifacts are, [populateMongo] changes
    nothing but the console: no collection of the target store gets a
    document. *)
Lemma populateMongo_console_only (w : World) :
  exists lines, (populateMongo JSON_parse w).2 = with_console (console w ++ lines) w.
Proof.
  unfold populateMongo, mbind, Eff_bind, gets.
  destruct (0 <? length (modelschemas w))%nat.
  - apply load_loop_console_only.
  - exists []. rewrite app_nil_r. by destruct w.
Qed.

Lemma populateMongo_leaves_store (w : World) :
  collections (populateMongo JSON_parse w).2 = collections w.
Proof. destruct (populateMongo_console_only w) as [lines ->]. reflexivity. Qed.

End Loading.

(** C1, at a sample. The table [users] is staged with one row and mapped to
    the model [Users]: [populateMongo] returns, has printed the parsed rows
    of both artifacts, and the collection [Users] of the target store has no
    document. *)
Theorem populateMongo_writes_no_document :
  let tables := [Sample.users; Sample.order_items] in
  let w := Sample.generated tables in
  Map_get "users.json" (modelschemas w) = Some "Users" /\
  populateMongo (Sample.parse tables) w
  = (Normal tt,
     with_console (console w ++ [LogData (Sample.table_rows Sample.order_items);
                                 LogData (Sample.table_rows Sample.users)]) w) /\
  collections (populateMongo (Sample.parse tables) w).2 !! "Users" = None.
Proof. vm_compute. by repeat split. Qed.

(** C7, at a sample. One instance runs discovery, staging and generation
    for the table [users], and then again after [users] has given way to
    [order_items]. The second generation returns with a mapping that still
    holds the entry of [users.json], an artifact that is staged no longer;
    [populateMongo] then fails on it. *)
Theorem second_generation_keeps_stale_entry :
  let run := Sample.two_runs [Sample.users] [Sample.order_items] (constructor None None ∅) in
  run.1 = Normal tt /\
  modelschemas run.2 = [("users.json", "Users"); ("order_items.json", "Orderitems")] /\
  datafiles run.2
  = Some {["order_items.json" := File (Sample.stringify (Sample.table_rows Sample.order_items))]} /\
  (populateMongo (Sample.parse [Sample.order_items]) run.2).1
  = Throw (FsError ENOENT "users.json").
Proof. vm_compute. by repeat split. Qed.

(** C8, at a sample. The table [shapes] has one column, of a type without
    entry in the table of types: generation returns, the one stream that it
    has created is the stream of [Shapes.ts], whose chunks declare the
    column with the type [undefined], and once that stream has finished the
    schema file of [Shapes] holds this text. *)
Theorem unmapped_type_sample :
  let tables := [Sample.shapes] in
  let text :=
    schema_text "Shapes"
      (LF +:+ indent 20 +:+ "outline: {" +:+
       LF +:+ indent 28 +:+ "type: undefined," +:+
       LF +:+ indent 28 +:+ "required: true," +:+
       LF +:+ indent 28 +:+ "default: null," +:+
       LF +:+ indent 20 +:+ "},") in
  Sample.datatypes "geometry" = None /\
  exists w' chunks,
    generateMongoSchemas (Sample.mysql tables) Sample.datatypes (Sample.staged tables)
    = (Normal tt, w') /\
    streams w' = [mkStream "Shapes.ts" chunks] /\
    chunks_text chunks = text /\
    forall d, settles_on w' d ->
      exists mm, d = Some mm /\ mm !! "Shapes.ts" = Some (File text).
Proof.
  intros tables text. split; [reflexivity|].
  exists (Sample.generated tables),
    (stream_chunks (schema_stream Sample.datatypes "Shapes" (Sample.table_columns Sample.shapes))).
  assert (streams (Sample.generated tables)
          = [schema_stream Sample.datatypes "Shapes" (Sample.table_columns Sample.shapes)])
    as Hstreams by (vm_compute; reflexivity).
  assert (chunks_text
            (stream_chunks
               (schema_stream Sample.datatypes "Shapes" (Sample.table_columns Sample.shapes)))
          = text) as Htext by (vm_compute; reflexivity).
  split; [vm_compute; reflexivity|]. split; [exact Hstreams|]. split; [exact Htext|].
  intros d Hd. rewrite <- Htext.
  apply (settles_on_alone (Sample.generated tables) ∅ d 0
           (schema_stream Sample.datatypes "Shapes" (Sample.table_columns Sample.shapes))).
  - vm_compute. reflexivity.
  - apply all_files_empty.
  - exact Hd.
  - by rewrite Hstreams.
  - rewrite Hstreams. intros [|j] s Hj _; [reflexivity|]. discriminate Hj.
Qed.


(** * Further properties *)

(** ** What an operation leaves as it is *)

Section Preserves.
Context {S : Type} (P : S -> Prop).

Lemma preserves_ret {A} (a : A) : preserves P (mret a).
Proof. by intros s. Qed.

Lemma preserves_throw {A} (e : exn) : preserves P (throw (A := A) e).
Proof. by intros s. Qed.

Lemma preserves_gets {A} (f : S -> A) : preserves P (gets f).
Proof. by intros s. Qed.

Lemma preserves_await {A} (p : DbResult A) : preserves P (await p).
Proof. by destruct p; intros s. Qed.

Lemma preserves_modify (f : S -> S) : (forall s, P s -> P (f s)) -> preserves P (modify f).
Proof. intros H s. apply H. Qed.

Lemma preserves_bind {A B} (m : Eff S A) (k : A -> Eff S B) :
  preserves P m -> (forall a, preserves P (k a)) -> preserves P (m ≫= k).
Proof.
  intros Hm Hk s Hs. unfold mbind, Eff_bind. specialize (Hm s Hs).
  destruct (m s) as [[a|e] s1]; [by apply Hk | done].
Qed.

Lemma preserves_try_catch {A} (body handler : Eff S A) :
  preserves P body -> preserves P handler -> preserves P (try_catch body handler).
Proof.
  intros Hb Hh s Hs. unfold try_catch. specialize (Hb s Hs).
  destruct (body s) as [[a|e] s1]; [done | by apply Hh].
Qed.

Lemma preserves_for_of {A} (xs : list A) (body : A -> Eff S unit) :
  (forall x, preserves P (body x)) -> preserves P (for_of xs body).
Proof.
  intros H. induction xs as [|x xs IH]; simpl.
  - apply preserves_ret.
  - apply preserves_bind; [apply H | by intros _].
Qed.

End Preserves.

Lemma preserves_in_datafiles {A} (P : World -> Prop) (op : Eff dir A) :
  (forall d w, P w -> P (with_datafiles d w)) -> preserves P (in_datafiles op).
Proof.
  intros H w Hw. unfold in_datafiles. destruct (op (datafiles w)) as [r d]. by apply H.
Qed.

Lemma preserves_in_mongomodels {A} (P : World -> Prop) (op : Eff dir A) :
  (forall d w, P w -> P (with_mongomodels d w)) -> preserves P (in_mongomodels op).
Proof.
  intros H w Hw. unfold in_mongomodels. destruct (op (mongomodels w)) as [r d]. by apply H.
Qed.

Lemma preserves_createWriteStream (P : World -> Prop) (name : string) :
  (forall ss w, P w -> P (with_streams ss w)) -> preserves P (createWriteStream name).
Proof. intros H w Hw. by apply H. Qed.

Lemma preserves_stream_write (P : World -> Prop) (model : nat) (chunk : string) :
  (forall ss w, P w -> P (with_streams ss w)) -> preserves P (stream_write model chunk).
Proof. intros H w Hw. by apply H. Qed.

(** Listing a directory and reading a file change nothing. *)
Lemma readdir_in_datafiles (w : World) :
  (in_datafiles readdirSync w).2 = w.
Proof.
  unfold in_datafiles, readdirSync.
  destruct (datafiles w) eqn:E; simpl; by rewrite <- E, with_datafiles_id.
Qed.

Lemma readFile_in_datafiles (name : string) (w : World) :
  (in_datafiles (readFileSync name) w).2 = w.
Proof.
  unfold in_datafiles, readFileSync.
  destruct (datafiles w) as [m|] eqn:E; simpl.
  - destruct (m !! name) as [[text|]|]; simpl; by rewrite <- E, with_datafiles_id.
  - by rewrite <- E, with_datafiles_id.
Qed.

Lemma preserves_console_log (P : World -> Prop) (l : logline) :
  (forall c w, P w -> P (with_console c w)) -> preserves P (console_log l).
Proof. intros H w Hw. by apply H. Qed.

Section Frames.

Variable database : Database.
Variable JSON_stringify : json -> string.
Variable JSON_parse : string -> option json.
Variable datatypes : string -> option string.

Lemma retrieveModels_preserves (P : World -> Prop) :
  (forall v w, P w -> P (with_models v w)) ->
  preserves P (retrieveModels database).
Proof.
  intros H. apply preserves_bind; [apply preserves_await|].
  intros T. apply preserves_modify. intros w. apply H.
Qed.

Lemma retrieveMysqlData_preserves (P : World -> Prop) :
  (forall d w, P w -> P (with_datafiles d w)) ->
  (forall c w, P w -> P (with_console c w)) ->
  preserves P (retrieveMysqlData database JSON_stringify).
Proof.
  intros Hd Hc. apply preserves_bind; [apply preserves_gets|].
  intros [T|]; [|apply preserves_throw].
  apply preserves_bind.
  { apply preserves_try_catch; [|by apply preserves_in_datafiles].
    apply preserves_bind; [by apply preserves_in_datafiles|].
    intros files. destruct (0 <? length files)%nat; [|apply preserves_ret].
    apply preserves_for_of. intros file. by apply preserves_in_datafiles. }
  intros _. apply preserves_bind.
  { apply preserves_for_of. intros model. apply preserves_bind; [apply preserves_await|].
    intros rows. by apply preserves_in_datafiles. }
  intros _. by apply preserves_console_log.
Qed.

Lemma generate_preserves (P : World -> Prop) (schemafile : string) :
  (forall k v w, P w -> P (with_modelschemas (Map_set k v (modelschemas w)) w)) ->
  (forall d w, P w -> P (with_mongomodels d w)) ->
  (forall ss w, P w -> P (with_streams ss w)) ->
  preserves P (generate database datatypes schemafile).
Proof.
  intros Hs Hm Hss. apply preserves_bind; [apply preserves_await|].
  intros definition. apply preserves_bind.
  { apply preserves_modify. intros w. apply Hs. }
  intros _. apply preserves_bind.
  { apply preserves_try_catch; [by apply preserves_in_mongomodels | apply preserves_ret]. }
  intros _. apply preserves_bind; [by apply preserves_createWriteStream|].
  intros model. repeat (apply preserves_bind; [by apply preserves_stream_write | intros _]).
  by apply preserves_stream_write.
Qed.

Lemma generateMongoSchemas_preserves (P : World -> Prop) :
  (forall k v w, P w -> P (with_modelschemas (Map_set k v (modelschemas w)) w)) ->
  (forall d w, P w -> P (with_mongomodels d w)) ->
  (forall ss w, P w -> P (with_streams ss w)) ->
  preserves P (generateMongoSchemas database datatypes).
Proof.
  intros Hs Hm Hss. apply preserves_bind.
  { intros w Hw. by rewrite readdir_in_datafiles. }
  intros schemafiles. destruct (length schemafiles <? 1)%nat; [apply preserves_throw|].
  apply preserves_bind.
  { apply preserves_try_catch; [|apply preserves_ret].
    apply preserves_bind; [by apply preserves_in_mongomodels|].
    intros ms. apply preserves_for_of. intros model. by apply preserves_in_mongomodels. }
  intros _. apply preserves_for_of. intros schemafile. by apply generate_preserves.
Qed.

Lemma populateMongo_preserves (P : World -> Prop) :
  (forall c w, P w -> P (with_console c w)) ->
  preserves P (populateMongo JSON_parse).
Proof.
  intros Hc. apply preserves_bind; [apply preserves_gets|].
  intros ms. destruct (0 <? length ms)%nat; [|apply preserves_ret].
  apply preserves_for_of. intros datafile. apply preserves_bind.
  { intros w Hw. by rewrite readFile_in_datafiles. }
  intros text. destruct (JSON_parse text); [by apply preserves_console_log | apply preserves_throw].
Qed.

End Frames.

Lemma Map_set_keys (k v : string) (ms : list (string * string)) :
  (Map_set k v ms).*1 = if decide (k ∈ ms.*1) then ms.*1 else ms.*1 ++ [k].
Proof.
  induction ms as [|[k' v'] ms IH]; csimpl; [done|].
  destruct (String.eqb_spec k' k) as [->|Hne]; csimpl.
  - rewrite decide_True; [done | by left].
  - rewrite IH. destruct (decide (k ∈ ms.*1)) as [Hin|Hnin].
    + rewrite decide_True; [done | by right].
    + rewrite decide_False; [done|]. by intros [->|?]%elem_of_cons.
Qed.

Lemma Map_set_NoDup (k v : string) (ms : list (string * string)) :
  NoDup ms.*1 -> NoDup (Map_set k v ms).*1.
Proof.
  intros H. rewrite Map_set_keys. destruct (decide (k ∈ ms.*1)); [done|].
  apply NoDup_app. split; [done|]. split; [|apply NoDup_singleton].
  intros x Hx ->%list_elem_of_singleton. done.
Qed.

Section FrameProperties.

Variable database : Database.
Variable JSON_stringify : json -> string.
Variable JSON_parse : string -> option json.
Variable datatypes : string -> option string.

(** X1. Whether it returns or throws, each operation changes only its own
    part of the state: discovery the list of models; staging the staging
    directory and the console; generation the mapping, the schema directory
    and the streams pending on it; loading the console. So staging never
    touches the mapping or a schema file, generation never touches a staged
    artifact, and no operation writes the target store. *)
Theorem operations_frame (w : World) :
  (exists v, (retrieveModels database w).2 = with_models v w) /\
  (exists d c, (retrieveMysqlData database JSON_stringify w).2
               = with_console c (with_datafiles d w)) /\
  (exists ms d ss, (generateMongoSchemas database datatypes w).2
                   = with_streams ss (with_mongomodels d (with_modelschemas ms w))) /\
  (exists c, (populateMongo JSON_parse w).2 = with_console c w).
Proof.
  split; [|split; [|split]].
  - apply (retrieveModels_preserves database (fun w' => exists v, w' = with_models v w)).
    + intros v w' [v' ->]. by exists v.
    + exists (models w). by destruct w.
  - apply (retrieveMysqlData_preserves database JSON_stringify
             (fun w' => exists d c, w' = with_console c (with_datafiles d w))).
    + intros d w' (d' & c & ->). by exists d, c.
    + intros c w' (d & c' & ->). by exists d, c.
    + exists (datafiles w), (console w). by destruct w.
  - apply (generateMongoSchemas_preserves database datatypes
             (fun w' => exists ms d ss,
                w' = with_streams ss (with_mongomodels d (with_modelschemas ms w)))).
    + intros k v w' (ms & d & ss & ->). by eexists _, d, ss.
    + intros d w' (ms & d' & ss & ->). by exists ms, d, ss.
    + intros ss w' (ms & d & ss' & ->). by exists ms, d, ss.
    + exists (modelschemas w), (mongomodels w), (streams w). by destruct w.
  - apply (populateMongo_preserves JSON_parse (fun w' => exists c, w' = with_console c w)).
    + intros c w' [c' ->]. by exists c.
    + exists (console w). by destruct w.
Qed.

(** X2. The mapping never holds two entries for one artifact: a mapping
    with distinct keys still has distinct keys after any of the four
    operations, returned or thrown. *)
Theorem mapping_keys_stay_distinct (w : World) :
  NoDup (modelschemas w).*1 ->
  NoDup (modelschemas (retrieveModels database w).2).*1 /\
  NoDup (modelschemas (retrieveMysqlData database JSON_stringify w).2).*1 /\
  NoDup (modelschemas (generateMongoSchemas database datatypes w).2).*1 /\
  NoDup (modelschemas (populateMongo JSON_parse w).2).*1.
Proof.
  intros H. split; [|split; [|split]].
  - by apply (retrieveModels_preserves database (fun w' => NoDup (modelschemas w').*1)).
  - by apply (retrieveMysqlData_preserves database JSON_stringify
                (fun w' => NoDup (modelschemas w').*1)).
  - apply (generateMongoSchemas_preserves database datatypes
             (fun w' => NoDup (modelschemas w').*1)); [|done|done|done].
    intros k v w' Hw'. by apply Map_set_NoDup.
  - by apply (populateMongo_preserves JSON_parse (fun w' => NoDup (modelschemas w').*1)).
Qed.

End FrameProperties.


(** ** More on staging *)

Lemma unlink_loop_directory (l : list string) (m : gmap string node) (k : string) :
  k ∈ l -> m !! k = Some Directory ->
  exists e m', for_of l unlinkSync (Some m) = (Throw e, Some m') /\
               m' ⊆ m /\ m' !! k = Some Directory.
Proof.
  revert m. induction l as [|k0 l IH]; intros m Hk Hdir; [by apply elem_of_nil in Hk|].
  simpl. unfold mbind, Eff_bind, unlinkSync at 1.
  destruct (m !! k0) as [[c|]|] eqn:E.
  - assert (k <> k0) as Hne by (intros ->; congruence).
    apply elem_of_cons in Hk as [Hk|Hk]; [done|].
    destruct (IH (delete k0 m) Hk) as (e & m' & Hrun & Hsub & Hm').
    { by rewrite lookup_delete_ne. }
    exists e, m'. split; [done|]. split; [|done].
    etrans; [exact Hsub | apply delete_subseteq].
  - by exists (FsError EISDIR k0), m.
  - by exists (FsError ENOENT k0), m.
Qed.

Section MoreStaging.

Variable database : Database.
Variable JSON_stringify : json -> string.

#[local] Abbreviation select' t := (query_rows database ("select * from " +:+ t)).
#[local] Abbreviation stage' := (stage database JSON_stringify).
#[local] Abbreviation retrieve' := (retrieveMysqlData database JSON_stringify).
#[local] Abbreviation guard := (Error "Call retrieveModels to get MySQL models!").

Lemma retrieveModels_unfold (w : World) :
  retrieveModels database w =
  match query_tables database "show full tables where Table_Type = 'BASE TABLE'" with
  | Resolved T => (Normal tt, with_models (Some T) w)
  | Rejected r => (Throw (QueryError r), w)
  end.
Proof.
  unfold retrieveModels, mbind, Eff_bind, await.
  by destruct (query_tables database _).
Qed.

(** The clean-up of lines 47-56 has two outcomes. *)
Lemma clear_datafiles_cases (w : World) :
  clear_datafiles w = (Normal tt, with_datafiles (Some ∅) w) \/
  (exists m', clear_datafiles w = (Throw (FsError EEXIST EmptyString), with_datafiles (Some m') w) /\
              ~ no_subdirectory (datafiles w)).
Proof.
  rewrite clear_datafiles_unfold. destruct (datafiles w) as [m|]; [|by left].
  destruct (for_of (map_to_list m).*1 unlinkSync (Some m)) as [[[]|e] d] eqn:E.
  - left. by apply unlink_everything_inv in E as ->.
  - destruct d as [m'|]; [|by left]. right. exists m'. split; [done|].
    intros Hall. simpl in Hall. by rewrite unlink_everything_files in E.
Qed.

(** In a directory of regular files the staging loop throws nothing but the
    rejection of a read. *)
Lemma stage_loop_throw (l : list string) (w w' : World) (m0 : gmap string node) (e : exn) :
  datafiles w = Some m0 -> all_files m0 ->
  for_of l stage' w = (Throw e, w') ->
  exists t reason, t ∈ l /\ select' t = Rejected reason /\ e = QueryError reason.
Proof.
  revert w m0. induction l as [|t l IH]; intros w m0 Hd Hf H; simpl in H; [discriminate|].
  unfold mbind, Eff_bind in H. rewrite stage_unfold, Hd in H.
  destruct (select' t) as [rows|reason] eqn:Eq.
  - assert (m0 !! (t +:+ ".json") <> Some Directory) as Hnd by apply Hf.
    assert (exists w1, for_of l stage' w1 = (Throw e, w') /\
              datafiles w1 = Some (<[t +:+ ".json" := File (JSON_stringify rows)]> m0))
      as (w1 & Hl & Hd1).
    { destruct (m0 !! (t +:+ ".json")) as [[c|]|]; [| done |]; by eexists. }
    destruct (IH w1 _ Hd1 (all_files_insert _ _ _ Hf) Hl) as (t' & reason & Ht' & Hr & ->).
    exists t', reason. split; [by right | done].
  - injection H as <- _. exists t, reason. split; [by left | done].
Qed.

Lemma staged_all_files (T : list string) (m : gmap string node) :
  staged_with database JSON_stringify T m -> all_files m.
Proof.
  intros [Ha Hrows] name Hdir.
  destruct (proj1 (Ha name)) as (t & Ht & ->); [by rewrite Hdir|].
  destruct (Hrows t Ht) as (rows & _ & Hfile). congruence.
Qed.

Lemma staged_unique (T : list string) (m1 m2 : gmap string node) :
  staged_with database JSON_stringify T m1 ->
  staged_with database JSON_stringify T m2 -> m1 = m2.
Proof.
  intros [Ha1 Hr1] [Ha2 Hr2]. apply map_eq. intros name.
  destruct (decide (Exists (fun t => name = t +:+ ".json") T)) as [He|Hn].
  - apply Exists_exists in He as (t & Ht & ->).
    destruct (Hr1 t Ht) as (rows1 & Hq1 & ->). destruct (Hr2 t Ht) as (rows2 & Hq2 & ->).
    congruence.
  - assert (forall m, artifacts_of T m -> m !! name = None) as Hnone.
    { intros m Ha. destruct (m !! name) eqn:E; [|done].
      destruct (proj1 (Ha name)) as (t & Ht & ->); [by rewrite E|].
      destruct Hn. apply Exists_exists. by exists t. }
    by rewrite !Hnone.
Qed.

(** Staging from a directory without sub-directory, every read answered *)
Lemma staging_runs (w : World) (T : list string) :
  models w = Some T -> no_subdirectory (datafiles w) ->
  (forall t, t ∈ T -> exists rows, select' t = Resolved rows) ->
  exists m, retrieve' w
            = (Normal tt, with_console (console w ++ [LogFound (length T)])
                            (with_datafiles (Some m) w)) /\
            staged_with database JSON_stringify T m.
Proof.
  intros Hm Hd Hq. rewrite (retrieveMysqlData_unfold _ _ _ _ Hm).
  destruct (stage_loop_ok database JSON_stringify T (with_datafiles (Some ∅) w) ∅)
    as [w1 Hw1]; [done | apply all_files_empty | done |].
  pose proof Hw1 as (m & -> & Ha & Hrows)%staged_exactly.
  exists m. split; [|by split].
  erewrite bind_normal; [|by apply clear_datafiles_ok].
  erewrite bind_normal; [|exact Hw1]. reflexivity.
Qed.

(** Staging that has returned *)
Lemma staging_returned (w w1 : World) :
  retrieve' w = (Normal tt, w1) ->
  exists T m, models w = Some T /\
    w1 = with_console (console w ++ [LogFound (length T)]) (with_datafiles (Some m) w) /\
    staged_with database JSON_stringify T m.
Proof.
  intros H. destruct (models w) as [T|] eqn:Hm.
  - rewrite (retrieveMysqlData_unfold _ _ _ _ Hm) in H.
    apply bind_normal_inv in H as ([] & w0 & ->%clear_datafiles_inv & H).
    apply bind_normal_inv in H as ([] & w2 & Hs & Hlog).
    apply staged_exactly in Hs as (m & -> & Ha & Hrows).
    injection Hlog as <-. exists T, m. split; [done|]. split; [done|]. by split.
  - unfold retrieveMysqlData, mbind, Eff_bind, gets in H. rewrite Hm in H. discriminate.
Qed.

(** X3. What staging can throw. Without a list of models it throws the
    error that asks for [retrieveModels] and changes nothing. With one, it
    throws either [EEXIST], from the [mkdirSync] of its clean-up, and then a
    sub-directory stands in the staging directory; or the rejection of the
    read of one of the listed tables. It throws nothing else: for table
    names of one path segment no write of an artifact fails. *)
Theorem staging_errors (w : World) :
  (models w = None -> retrieve' w = (Throw guard, w)) /\
  (forall (e : exn) (w' : World),
     (forall T, models w = Some T -> Forall entry_name T) ->
     retrieve' w = (Throw e, w') ->
     (models w = None /\ e = guard /\ w' = w) \/
     (e = FsError EEXIST EmptyString /\ ~ no_subdirectory (datafiles w)) \/
     (exists T t reason, models w = Some T /\ t ∈ T /\
                         select' t = Rejected reason /\ e = QueryError reason)).
Proof.
  split.
  { intros Hm. unfold retrieveMysqlData, mbind, Eff_bind, gets. by rewrite Hm. }
  intros e w' _ H. destruct (models w) as [T|] eqn:Hm.
  - right. rewrite (retrieveMysqlData_unfold _ _ _ _ Hm) in H.
    unfold mbind at 1, Eff_bind at 1 in H.
    destruct (clear_datafiles_cases w) as [Hc|(m' & Hc & Hsub)]; rewrite Hc in H.
    + right. unfold mbind, Eff_bind in H.
      destruct (for_of T stage' (with_datafiles (Some ∅) w)) as [[[]|e1] w1] eqn:E;
        [discriminate|].
      injection H as <- _.
      destruct (stage_loop_throw T (with_datafiles (Some ∅) w) w1 ∅ e1 eq_refl
                  all_files_empty E) as (t & reason & ? & ? & ?).
      by exists T, t, reason.
    + left. by injection H as <- _.
  - left. unfold retrieveMysqlData, mbind, Eff_bind, gets in H. rewrite Hm in H.
    by injection H as <- <-.
Qed.

(** X4. Staging twice in a row, against a database that answers the same,
    gives the same staging directory: when the first run has returned, the
    second returns too and leaves every artifact with the text it had. *)
Theorem staging_twice (w w1 : World) :
  (forall T, models w = Some T -> Forall entry_name T) ->
  retrieve' w = (Normal tt, w1) ->
  exists w2, retrieve' w1 = (Normal tt, w2) /\ datafiles w2 = datafiles w1.
Proof.
  intros _ (T & m & Hm & -> & Hst)%staging_returned.
  destruct (staging_runs (with_console (console w ++ [LogFound (length T)])
                            (with_datafiles (Some m) w)) T) as (m2 & Hrun & Hst2).
  - exact Hm.
  - simpl. by eapply staged_all_files.
  - intros t Ht. destruct (proj2 Hst t Ht) as (rows & ? & _). by exists rows.
  - eexists. split; [exact Hrun|]. simpl. f_equal. by eapply staged_unique.
Qed.

(** X5. A sub-directory in the staging directory stops staging before any
    table is read: the clean-up cannot unlink it, the handler that is meant
    to create a missing directory runs instead, and staging throws its
    [EEXIST]. Entries listed before the sub-directory are deleted by then;
    nothing is added. *)
Theorem staging_blocked_by_subdirectory (w : World) (T : list string)
    (m : gmap string node) (k : string) :
  models w = Some T -> datafiles w = Some m -> m !! k = Some Directory ->
  exists m', retrieve' w = (Throw (FsError EEXIST EmptyString), with_datafiles (Some m') w) /\
             m' ⊆ m /\ m' !! k = Some Directory.
Proof.
  intros Hm Hd Hk. rewrite (retrieveMysqlData_unfold _ _ _ _ Hm).
  destruct (unlink_loop_directory (map_to_list m).*1 m k) as (e & m' & Hloop & Hsub & Hk');
    [apply readdir_all; by rewrite Hk | done |].
  exists m'. split; [|done].
  apply bind_throw. by rewrite clear_datafiles_unfold, Hd, Hloop.
Qed.

(** X6. Discovery and staging together. When the listing of the tables is
    answered with [T] and every read succeeds, the two calls return, the
    instance holds [T] in place of any earlier list, and the staging
    directory holds the artifacts of [T] with their rows and nothing else.
    When the listing is rejected, the rejection is thrown and nothing has
    changed: staging has not run, an earlier list and its artifacts stay. *)
Theorem discover_then_stage (w : World) :
  (forall T,
     query_tables database "show full tables where Table_Type = 'BASE TABLE'" = Resolved T ->
     Forall entry_name T -> no_subdirectory (datafiles w) ->
     (forall t, t ∈ T -> exists rows, select' t = Resolved rows) ->
     exists w' m, (retrieveModels database ;; retrieve') w = (Normal tt, w') /\
       models w' = Some T /\ datafiles w' = Some m /\
       staged_with database JSON_stringify T m) /\
  (forall reason,
     query_tables database "show full tables where Table_Type = 'BASE TABLE'" = Rejected reason ->
     (retrieveModels database ;; retrieve') w = (Throw (QueryError reason), w)).
Proof.
  split.
  - intros T Hl _ Hd Hq.
    destruct (staging_runs (with_models (Some T) w) T) as (m & Hrun & Hst); [done..|].
    eexists _, m. split.
    { erewrite bind_normal; [exact Hrun|]. by rewrite retrieveModels_unfold, Hl. }
    split; [done|]. split; [done | exact Hst].
  - intros reason Hl. apply bind_throw. by rewrite retrieveModels_unfold, Hl.
Qed.

End MoreStaging.

(** ** More on schema generation *)

Section MoreGeneration.

Variable database : Database.
Variable datatypes : string -> option string.

#[local] Abbreviation describe' f := (query_describe database ("describe " +:+ table_of f)).
#[local] Abbreviation name' f := (modelname_of (table_of f)).
#[local] Abbreviation generate' := (generate database datatypes).
#[local] Abbreviation generation' := (generateMongoSchemas database datatypes).

(** The stream of the artifact of rank [j] in a list whose tables are all
    described *)
Lemma streams_of_lookup (l : list string) (j : nat) :
  (forall g, g ∈ l -> exists definition, describe' g = Resolved definition) ->
  streams_of database datatypes l !! j
  = l !! j ≫= fun g => match describe' g with
                       | Resolved definition =>
                           Some (schema_stream datatypes (name' g) definition)
                       | Rejected _ => None
                       end.
Proof.
  revert j. induction l as [|f l IH]; intros j Hq; [done|].
  destruct (Hq f) as [definition Hdef]; [by left|].
  rewrite (streams_of_cons database datatypes f l definition Hdef).
  destruct j as [|j].
  - transitivity (match describe' f with
                  | Resolved d => Some (schema_stream datatypes (name' f) d)
                  | Rejected _ => None
                  end); [by rewrite Hdef | reflexivity].
  - apply IH. intros g Hg. apply Hq. by right.
Qed.

Lemma streams_of_at (l : list string) (j : nat) (f : string) (definition : list Column) :
  (forall g, g ∈ l -> exists definition, describe' g = Resolved definition) ->
  l !! j = Some f -> describe' f = Resolved definition ->
  streams_of database datatypes l !! j
  = Some (schema_stream datatypes (name' f) definition).
Proof.
  intros Hq Hj Hdef. rewrite streams_of_lookup, Hj by done.
  transitivity (match describe' f with
                | Resolved d => Some (schema_stream datatypes (name' f) d)
                | Rejected _ => None
                end); [reflexivity | by rewrite Hdef].
Qed.

Lemma streams_of_at_inv (l : list string) (j : nat) (s : stream) :
  (forall g, g ∈ l -> exists definition, describe' g = Resolved definition) ->
  streams_of database datatypes l !! j = Some s ->
  exists g definition, l !! j = Some g /\ describe' g = Resolved definition /\
                       s = schema_stream datatypes (name' g) definition.
Proof.
  intros Hq. rewrite streams_of_lookup by done.
  destruct (l !! j) as [g|]; [|done]. intros H.
  change (match describe' g with
          | Resolved d => Some (schema_stream datatypes (name' g) d)
          | Rejected _ => None
          end = Some s) in H.
  destruct (describe' g) as [definition|] eqn:E; [|done].
  injection H as <-. by exists g, definition.
Qed.

(** X7. What generation can throw. [ENOENT] when the staging directory is
    absent and [Empty directory!] when it is empty, both with nothing
    changed; or the rejection of the description of a staged artifact's
    table. It throws nothing else: what goes wrong while the schema files
    of an earlier run are deleted is never thrown, and the failure of a
    stream to open its file is no exception of the call either: it is an
    event of the stream, which the source does not listen to. *)
Theorem generation_errors (w w' : World) (e : exn) :
  generation' w = (Throw e, w') ->
  (datafiles w = None /\ e = FsError ENOENT EmptyString /\ w' = w) \/
  (datafiles w = Some ∅ /\ e = Error "Empty directory!" /\ w' = w) \/
  (exists m f reason, datafiles w = Some m /\ is_Some (m !! f) /\
                      describe' f = Rejected reason /\ e = QueryError reason).
Proof.
  intros H. rewrite generation_unfold in H.
  destruct (datafiles w) as [m|] eqn:Hm.
  - destruct ((map_to_list m).*1) as [|f fs] eqn:El.
    + right. left. apply fmap_nil_inv, map_to_list_empty_iff in El as ->.
      by injection H as <- <-.
    + right. right. apply generate_loop_throw in H as (g & r & Hg & Hr & ->).
      exists m, g, r. split; [done|]. split; [|done].
      apply readdir_is_Some. by rewrite El.
  - left. by injection H as <- <-.
Qed.

(** X8. Generation stops at the first artifact whose table cannot be
    described. It throws that rejection; the schema files of an earlier run
    are deleted by then, the schema directory holds only files written for
    the artifacts listed before; those artifacts have their entry in the
    mapping, and every other key of the mapping, the failing artifact
    included, is as it was. The staged artifacts are untouched. The files
    of the artifacts listed before are written by streams that nothing
    waits for: when generation has started without pending stream, the
    schema directory holds only such files whenever it is looked at once
    the streams exist. *)
Theorem generation_fails_fast (w : World) (m : gmap string node)
    (l1 l3 : list string) (f reason : string) :
  datafiles w = Some m ->
  (map_to_list m).*1 = l1 ++ f :: l3 ->
  (forall g, g ∈ l1 -> exists definition, describe' g = Resolved definition) ->
  describe' f = Rejected reason ->
  no_subdirectory (mongomodels w) ->
  exists w', generation' w = (Throw (QueryError reason), w') /\
    (forall g, g ∈ l1 -> Map_get g (modelschemas w') = Some (name' g)) /\
    (forall g, g ∉ l1 -> Map_get g (modelschemas w') = Map_get g (modelschemas w)) /\
    (forall k, is_Some (default ∅ (mongomodels w') !! k) ->
               exists g, g ∈ l1 /\ k = name' g +:+ ".ts") /\
    datafiles w' = Some m /\
    (streams w = [] ->
     forall d k, lands_on w' d -> is_Some (default ∅ d !! k) ->
                 exists g, g ∈ l1 /\ k = name' g +:+ ".ts").
Proof.
  intros Hm Hl Hq Hrej Hno.
  pose proof (cleared_is_empty w Hno) as Hempty.
  pose proof (clear_mongomodels_frame w) as Hframe.
  set (w0 := (clear_mongomodels w).2) in *.
  pose proof (generate_loop_returns database datatypes l1 w0 Hq) as Hrun.
  set (w1 := with_streams _ _) in Hrun.
  assert (modelschemas w1 = foldl (fun acc g => Map_set g (name' g) acc) (modelschemas w) l1)
    as Hms.
  { unfold w1. rewrite Hframe. by destruct w. }
  assert (default ∅ (mongomodels w1) = ∅) as Hmm.
  { unfold w1. destruct l1; exact Hempty. }
  assert (datafiles w1 = Some m) as Hdf.
  { unfold w1. rewrite Hframe. by destruct w. }
  assert (streams w1 = streams w ++ streams_of database datatypes l1) as Hst.
  { unfold w1. rewrite Hframe. by destruct w. }
  clearbody w1.
  assert (no_subdirectory (mongomodels w1)) as Hno1.
  { destruct (mongomodels w1) as [mm|]; [|done]. simpl in Hmm. rewrite Hmm.
    apply all_files_empty. }
  exists w1. split; [|split; [|split; [|split; [|split]]]].
  - rewrite generation_unfold, Hm, Hl.
    assert (for_of (l1 ++ f :: l3) generate' w0 = (Throw (QueryError reason), w1)) as Hall.
    { rewrite for_of_app, Hrun. simpl. apply bind_throw.
      by rewrite generate_unfold, Hrej. }
    by destruct l1.
  - intros g Hg. rewrite Hms. apply (Map_set_all_get (fun g => name' g)). by left.
  - intros g Hg. rewrite Hms. by apply Map_set_all_other.
  - intros k Hk. rewrite Hmm, lookup_empty in Hk. by destruct Hk.
  - exact Hdf.
  - intros Hss d k Hd Hk.
    destruct (lands_on_bounded w1 d k Hno1 Hd Hk) as [Hold|(s & Hs & <-)].
    + rewrite Hmm, lookup_empty in Hold. by destruct Hold.
    + rewrite Hst, Hss in Hs.
      apply elem_of_streams_of in Hs as (g & definition & Hg & _ & ->).
      by exists g.
Qed.

(** X9. Generation replaces the content of the schema directory. It runs
    without pending stream in front of at least one staged artifact, every
    description answered and nothing but regular files in the schema
    directory. Then it returns, and its synchronous calls have emptied the
    schema directory: the schema files of an earlier run are gone. It has
    created one stream for every staged artifact, in the order of the
    listing, on the file [<Model>.ts] of the artifact's model name, and no
    statement of the source waits for it. Whenever the directory is looked
    at once the streams exist, it
    holds regular files only, each of them the file of a staged artifact's
    model name. Once every stream has finished, its entries are exactly
    the files [<Model>.ts] of the staged artifacts' model names, and the
    file of a model name that only one staged artifact has holds the text
    generated for that artifact. *)
Theorem generation_replaces_schemas (w : World) (m : gmap string node) :
  datafiles w = Some m -> m <> ∅ ->
  (forall g, is_Some (m !! g) -> exists definition, describe' g = Resolved definition) ->
  no_subdirectory (mongomodels w) ->
  streams w = [] ->
  exists w', generation' w = (Normal tt, w') /\
    mongomodels w' = Some ∅ /\
    stream_path <$> streams w' = (fun f => name' f +:+ ".ts") <$> (map_to_list m).*1 /\
    (forall d, lands_on w' d ->
       exists mm, d = Some mm /\ all_files mm /\
         forall k, is_Some (mm !! k) -> exists f, is_Some (m !! f) /\ k = name' f +:+ ".ts") /\
    (forall d, settles_on w' d ->
       exists mm, d = Some mm /\ all_files mm /\
         (forall k, is_Some (mm !! k) <->
                    exists f, is_Some (m !! f) /\ k = name' f +:+ ".ts") /\
         (forall f definition,
            is_Some (m !! f) -> describe' f = Resolved definition ->
            (forall g, is_Some (m !! g) -> name' g = name' f -> g = f) ->
            mm !! (name' f +:+ ".ts")
            = Some (File (schema_text (name' f) (modeldefinition_of datatypes definition))))).
Proof.
  intros Hm Hne Hq Hno Hss.
  pose proof (generation_returns database datatypes w m Hm Hne Hq) as Hgen.
  eexists. split; [exact Hgen|].
  destruct (generation_leaves _ _ _ _ _ Hgen Hm Hss Hno) as (Hmm & Hst & _).
  set (w' := with_streams _ _) in *. clearbody w'.
  assert (forall g, g ∈ (map_to_list m).*1 -> exists definition, describe' g = Resolved definition)
    as Hq'.
  { intros g Hg. by apply Hq, readdir_is_Some. }
  assert (forall d k, lands_on w' d -> is_Some (default ∅ d !! k) ->
            exists f, is_Some (m !! f) /\ k = name' f +:+ ".ts") as Hbound.
  { intros d k Hd Hk.
    destruct (lands_on_bounded w' d k) as [Hold|(s & Hs & <-)]; [by rewrite Hmm | done | done | |].
    - rewrite Hmm in Hold. simpl in Hold. rewrite lookup_empty in Hold. by destruct Hold.
    - rewrite Hst in Hs. apply elem_of_streams_of in Hs as (g & definition & Hg & _ & ->).
      exists g. split; [by apply readdir_is_Some | done]. }
  split; [exact Hmm|]. split; [by rewrite Hst, streams_of_paths|]. split.
  - intros d Hd.
    destruct (lands_on_files w' ∅ d Hmm all_files_empty Hd) as (mm & -> & Hfiles & _).
    exists mm. split; [done|]. split; [done|]. intros k Hk. by apply (Hbound (Some mm) k).
  - intros d Hd.
    destruct (settles_on_files w' ∅ d Hmm all_files_empty Hd) as (mm & -> & Hfiles & _ & Hthere).
    exists mm. split; [done|]. split; [done|]. split.
    + intros k. split.
      * intros Hk. apply (Hbound (Some mm) k); [by apply settles_on_lands_on | done].
      * intros (f & Hf%readdir_all & ->).
        apply list_elem_of_lookup in Hf as [j Hj].
        destruct (Hq' f) as [definition Hdef]; [by eapply list_elem_of_lookup_2|].
        destruct (Hthere j (schema_stream datatypes (name' f) definition)) as (content & Hc & _).
        { rewrite Hst. by apply streams_of_at. }
        by eexists.
    + intros f definition Hf Hdef Honly.
      pose proof (readdir_all _ _ Hf) as Hin.
      apply list_elem_of_lookup in Hin as [j Hj].
      destruct (settles_on_alone w' ∅ (Some mm) j
                  (schema_stream datatypes (name' f) definition) Hmm all_files_empty Hd)
        as (mm' & [= <-] & Hfile).
      * rewrite Hst. by apply streams_of_at.
      * intros i s Hi Hpath. rewrite Hst in Hi.
        apply streams_of_at_inv in Hi as (g & dg & Hg & _ & ->); [|done].
        apply append_inj_l in Hpath.
        assert (g = f) as ->.
        { apply Honly; [|done]. apply readdir_is_Some. by eapply list_elem_of_lookup_2. }
        exact (NoDup_lookup _ _ _ _ (NoDup_fst_map_to_list m) Hg Hj).
      * by rewrite <- (schema_text_parts datatypes).
Qed.

(** X10. A table whose name has a dot is lost between staging and
    generation. The artifact of the table [t.rest] is [t.rest.json], and
    line 92 takes the table name to be [t]: it is [t] that is described, and
    [t] that gives the model name. So when the description of [t] is
    rejected, the artifact stops generation whatever the description of
    [t.rest] would be. *)
Theorem dotted_table_name (t rest reason : string) (w : World) :
  includes "." t = false ->
  table_of ((t +:+ "." +:+ rest) +:+ ".json") = t /\
  (query_describe database ("describe " +:+ t) = Rejected reason ->
   generate' ((t +:+ "." +:+ rest) +:+ ".json") w = (Throw (QueryError reason), w)).
Proof.
  intros Hdot.
  assert (table_of ((t +:+ "." +:+ rest) +:+ ".json") = t) as Ht.
  { rewrite append_assoc. apply (first_segment_append "." t (rest +:+ ".json") Hdot). }
  split; [exact Ht|]. intros Hrej. by rewrite generate_unfold, Ht, Hrej.
Qed.

End MoreGeneration.


(** ** More on loading *)

Section MoreLoading.

Variable JSON_parse : string -> option json.

#[local] Abbreviation load' := (load JSON_parse).
#[local] Abbreviation readable' := (readable JSON_parse).

Lemma load_unfold (datafile : string * string) (w : World) :
  load' datafile w =
  match readable' (datafiles w) datafile.1 with
  | Some modeldata => (Normal tt, with_console (console w ++ [LogData modeldata]) w)
  | None => (Throw (load_failure (datafiles w) datafile.1), w)
  end.
Proof.
  unfold load, mbind, Eff_bind, in_datafiles, readFileSync, readable, load_failure.
  destruct (datafiles w) as [m|] eqn:E.
  - destruct (m !! datafile.1) as [[text|]|]; rewrite <- E, with_datafiles_id; try done.
    by destruct (JSON_parse text).
  - by rewrite <- E, with_datafiles_id.
Qed.

Lemma with_console_same (w : World) : with_console (console w ++ []) w = w.
Proof. rewrite app_nil_r. by destruct w. Qed.

Lemma load_loop_returns (ms : list (string * string)) (vals : list json) (w : World) :
  Forall2 (fun entry v => readable' (datafiles w) entry.1 = Some v) ms vals ->
  for_of ms load' w = (Normal tt, with_console (console w ++ (LogData <$> vals)) w).
Proof.
  intros H. revert w vals H. induction ms as [|entry ms IH]; intros w vals H.
  - apply Forall2_nil_inv_l in H as ->. simpl. unfold mret, Eff_ret.
    by rewrite with_console_same.
  - apply Forall2_cons_inv_l in H as (v & vals' & Hv & Hrest & ->).
    simpl. erewrite bind_normal; [|by rewrite load_unfold, Hv].
    rewrite (IH (with_console (console w ++ [LogData v]) w) vals' Hrest).
    simpl. by rewrite <- app_assoc.
Qed.

Lemma load_loop_returned (ms : list (string * string)) (w w' : World) :
  for_of ms load' w = (Normal tt, w') ->
  exists vals, Forall2 (fun entry v => readable' (datafiles w) entry.1 = Some v) ms vals.
Proof.
  revert w. induction ms as [|entry ms IH]; intros w H; simpl in H.
  - by exists [].
  - apply bind_normal_inv in H as ([] & w1 & He & Hrest). rewrite load_unfold in He.
    destruct (readable' (datafiles w) entry.1) as [v|] eqn:Ev; [|discriminate].
    injection He as <-. apply IH in Hrest as [vals Hvals].
    exists (v :: vals). by constructor.
Qed.

Lemma populateMongo_unfold (w : World) :
  populateMongo JSON_parse w = for_of (modelschemas w) load' w.
Proof.
  unfold populateMongo, mbind, Eff_bind, gets. by destruct (modelschemas w).
Qed.

(** X11. [populateMongo] returns exactly when every entry of the mapping
    names a regular file of the staging directory whose text parses, and
    then it has printed the parsed values, one for each entry in the order
    of the mapping, and done nothing else. In particular it returns without
    a trace on an empty mapping: before any generation it is a silent
    no-op. *)
Theorem loading_returns (w : World) :
  (forall vals,
     Forall2 (fun entry v => readable' (datafiles w) entry.1 = Some v) (modelschemas w) vals ->
     populateMongo JSON_parse w
     = (Normal tt, with_console (console w ++ (LogData <$> vals)) w)) /\
  (forall w', populateMongo JSON_parse w = (Normal tt, w') ->
     exists vals,
       Forall2 (fun entry v => readable' (datafiles w) entry.1 = Some v) (modelschemas w) vals) /\
  (modelschemas w = [] -> populateMongo JSON_parse w = (Normal tt, w)).
Proof.
  rewrite populateMongo_unfold. split; [|split].
  - intros vals H. by apply load_loop_returns.
  - intros w'. apply load_loop_returned.
  - intros ->. reflexivity.
Qed.

(** X12. [populateMongo] stops at the first entry that it cannot load: the
    entries before it are printed, the entries after it are not read. It
    throws [ENOENT] with the entry's name when the artifact is missing, as
    for an entry left by an earlier run, [EISDIR] when the name is a
    sub-directory, and [SyntaxError] when the text does not parse. *)
Theorem loading_stops_at_first_failure (w : World) (pre post : list (string * string))
    (k v : string) (vals : list json) :
  modelschemas w = pre ++ (k, v) :: post ->
  Forall2 (fun entry val => readable' (datafiles w) entry.1 = Some val) pre vals ->
  readable' (datafiles w) k = None ->
  populateMongo JSON_parse w
  = (Throw (load_failure (datafiles w) k),
     with_console (console w ++ (LogData <$> vals)) w).
Proof.
  intros Hms Hpre Hk. rewrite populateMongo_unfold, Hms, for_of_app.
  rewrite (load_loop_returns _ _ _ Hpre). simpl.
  apply bind_throw. rewrite load_unfold. simpl. by rewrite Hk.
Qed.

End MoreLoading.

(** ** More on names and types *)

Lemma upper_char_idempotent (c : ascii) : upper_char (upper_char c) = upper_char c.
Proof. by destruct c as [[] [] [] [] [] [] [] []]. Qed.

Lemma upper_char_separator (c : ascii) :
  Ascii.eqb (upper_char c) "_" = Ascii.eqb c "_".
Proof. by destruct c as [[] [] [] [] [] [] [] []]. Qed.

Lemma includes_remove_separators (sep : ascii) (s : string) :
  includes sep (remove_separators sep s) = false.
Proof.
  induction s as [|a r IH]; simpl; [done|].
  destruct (Ascii.eqb a sep) eqn:E; simpl; [done|]. by rewrite E.
Qed.

Lemma includes_capitalize (s : string) :
  includes "_" (capitalize s) = includes "_" s.
Proof. destruct s as [|a r]; simpl; [done|]. by rewrite upper_char_separator. Qed.

Lemma capitalize_idempotent (s : string) : capitalize (capitalize s) = capitalize s.
Proof. destruct s as [|a r]; simpl; [done|]. by rewrite upper_char_idempotent. Qed.

(** X13. A model name never has an underscore, whatever the table name,
    and the rule leaves a model name as it is: a table that is already named
    like its model collides with every table that is mapped to that model. *)
Theorem model_name_is_normal (table : string) :
  includes "_" (modelname_of table) = false /\
  modelname_of (modelname_of table) = modelname_of table.
Proof.
  assert (includes "_" (modelname_of table) = false) as H.
  { rewrite modelname_of_spec. unfold spec_model_name.
    by rewrite includes_capitalize, includes_remove_separators. }
  split; [exact H|].
  rewrite (modelname_of_spec (modelname_of table)). unfold spec_model_name.
  rewrite remove_separators_id; [|exact H].
  rewrite modelname_of_spec. unfold spec_model_name. apply capitalize_idempotent.
Qed.

Lemma includes_append_separator (sep : ascii) (t rest : string) :
  includes sep (t +:+ String sep rest) = true.
Proof.
  induction t as [|a r IH]; simpl.
  - by rewrite Ascii.eqb_refl.
  - by destruct (Ascii.eqb a sep).
Qed.

Section MoreDescriptor.

Variable datatypes : string -> option string.

(** X14. The parameters of a column type play no part in the field type:
    the key looked up in the table of types is the text before the first
    parenthesis, so all of [base(...)] and [base] itself get the same type
    tag, [undefined] included. *)
Theorem type_parameters_are_dropped (base params : string) (c1 c2 : Column) :
  includes "(" base = false ->
  Type_ c1 = base +:+ "(" +:+ params ->
  Type_ c2 = base ->
  datatype_of c1 = base /\ datatype_of c2 = base /\
  type_text datatypes c1 = type_text datatypes c2.
Proof.
  intros Hb H1 H2.
  assert (datatype_of c1 = base) as E1.
  { unfold datatype_of. rewrite H1.
    change (base +:+ "(" +:+ params) with (base +:+ String "(" params).
    rewrite includes_append_separator. by apply first_segment_append. }
  assert (datatype_of c2 = base) as E2.
  { unfold datatype_of. by rewrite H2, Hb. }
  split; [exact E1|]. split; [exact E2|]. unfold type_text. by rewrite E1, E2.
Qed.

End MoreDescriptor.

(** ** The four operations in a row *)

Lemma Forall2_choice {A B} (R : A -> B -> Prop) (l : list A) :
  (forall x, x ∈ l -> exists y, R x y) -> exists ys, Forall2 R l ys.
Proof.
  induction l as [|x l IH]; intros H.
  - by exists [].
  - destruct (H x) as [y Hy]; [by left|].
    destruct IH as [ys Hys]; [intros x' Hx'; apply H; by right|].
    exists (y :: ys). by constructor.
Qed.

Section Pipeline.

Variable database : Database.
Variable JSON_stringify : json -> string.
Variable JSON_parse : string -> option json.
Variable datatypes : string -> option string.

(** X15. The whole run on an instance with an empty mapping. The listing
    gives the tables [T], at least one, with names of one path segment and
    without dot; every read and every description is answered; the rows
    survive [JSON.stringify] followed by [JSON.parse]; nothing but regular
    files stands in either directory. Then the four operations return one
    after the other, the staging directory holds the artifacts of [T], the
    mapping has one entry for every artifact, with its model name, in the
    order of the listing, and the console has received the count of tables
    followed, for every artifact in that order, by the very rows that the
    database gave for its table. *)
Theorem pipeline_round_trip (w : World) (T : list string) :
  query_tables database "show full tables where Table_Type = 'BASE TABLE'" = Resolved T ->
  T <> [] -> Forall entry_name T ->
  (forall t, t ∈ T -> includes "." t = false) ->
  (forall t, t ∈ T ->
     exists rows, query_rows database ("select * from " +:+ t) = Resolved rows /\
                  JSON_parse (JSON_stringify rows) = Some rows) ->
  (forall t, t ∈ T -> exists definition,
     query_describe database ("describe " +:+ t) = Resolved definition) ->
  no_subdirectory (datafiles w) -> no_subdirectory (mongomodels w) ->
  modelschemas w = [] ->
  exists w' m vals,
    pipeline database JSON_stringify JSON_parse datatypes w = (Normal tt, w') /\
    datafiles w' = Some m /\ staged_with database JSON_stringify T m /\
    modelschemas w' = (fun f => (f, modelname_of (table_of f))) <$> (map_to_list m).*1 /\
    console w' = console w ++ LogFound (length T) :: (LogData <$> vals) /\
    Forall2 (fun f rows => exists t, t ∈ T /\ f = t +:+ ".json" /\
               query_rows database ("select * from " +:+ t) = Resolved rows)
            (map_to_list m).*1 vals.
Proof.
  intros Hlist Hne _ Hdot Hrows Hdesc Hdf Hmm Hnew.
  (* staging *)
  destruct (staging_runs database JSON_stringify (with_models (Some T) w) T)
    as (m & Hstage & Hst); [done | done | |].
  { intros t Ht. destruct (Hrows t Ht) as (rows & ? & _). by exists rows. }
  set (w2 := with_console (console w ++ [LogFound (length T)])
               (with_datafiles (Some m) (with_models (Some T) w))) in *.
  (* generation *)
  assert (forall g, is_Some (m !! g) -> exists t, t ∈ T /\ g = t +:+ ".json") as Hart.
  { intros g Hg. by apply (proj1 Hst). }
  destruct (generation_ok database datatypes w2 m) as [w3 Hgen]; [done | | | done |].
  { destruct T as [|t T']; [done|]. intros ->.
    destruct (proj2 Hst t) as (rows & _ & Hfile); [by left|].
    by rewrite lookup_empty in Hfile. }
  { intros g (t & Ht & ->)%Hart. rewrite table_of_artifact; [by apply Hdesc | by apply Hdot]. }
  pose proof (generation_on_new_mapping database datatypes w2 w3 m Hnew Hgen eq_refl) as Hms.
  destruct (generation_normal_inv database datatypes w2 w3 m Hgen eq_refl) as [_ Hdf3].
  assert (console w3 = console w2) as Hcon.
  { pose proof (generateMongoSchemas_preserves database datatypes
                  (fun w' => console w' = console w2)) as Hp.
    specialize (Hp (fun _ _ _ H => H) (fun _ _ H => H) (fun _ _ H => H) w2 eq_refl).
    by rewrite Hgen in Hp. }
  (* loading *)
  destruct (Forall2_choice
              (fun f rows => (exists t, t ∈ T /\ f = t +:+ ".json" /\
                                query_rows database ("select * from " +:+ t) = Resolved rows) /\
                             readable JSON_parse (Some m) f = Some rows)
              (map_to_list m).*1) as [vals Hvals].
  { intros f (t & Ht & ->)%readdir_is_Some%Hart.
    destruct (Hrows t Ht) as (rows & Hq & Hparse).
    destruct (proj2 Hst t Ht) as (rows' & Hq' & Hfile).
    assert (rows' = rows) as -> by congruence.
    exists rows. split; [by exists t|]. unfold readable. by rewrite Hfile. }
  assert (populateMongo JSON_parse w3
          = (Normal tt, with_console (console w3 ++ (LogData <$> vals)) w3)) as Hload.
  { rewrite populateMongo_unfold. apply load_loop_returns. rewrite Hms, Hdf3.
    apply Forall2_fmap_l. eapply Forall2_impl; [exact Hvals|].
    by intros f rows [_ ?]. }
  exists (with_console (console w3 ++ (LogData <$> vals)) w3), m, vals.
  split; [|split; [done|split; [done|split; [done|split]]]].
  - unfold pipeline.
    erewrite bind_normal; [|by rewrite retrieveModels_unfold, Hlist].
    erewrite bind_normal; [|exact Hstage].
    erewrite bind_normal; [|exact Hgen]. exact Hload.
  - simpl. rewrite Hcon. simpl. by rewrite <- app_assoc.
  - eapply Forall2_impl; [exact Hvals|]. by intros f rows [? _].
Qed.

End Pipeline.

(** ** Sample runs for the further properties *)

Lemma mapping_keys_stay_distinct_witness :
  let tables := [Sample.users; Sample.order_items] in
  NoDup (modelschemas
           (generateMongoSchemas (Sample.mysql tables) Sample.datatypes
              (Sample.generated tables)).2).*1.
Proof.
  intros tables.
  apply (mapping_keys_stay_distinct (Sample.mysql tables) Sample.stringify
           (Sample.parse tables) Sample.datatypes (Sample.generated tables)).
  apply (bool_decide_unpack _). by vm_compute.
Defined.

Lemma staging_errors_witness :
  retrieveMysqlData (Sample.mysql [Sample.users]) Sample.stringify (constructor None None ∅)
  = (Throw (Error "Call retrieveModels to get MySQL models!"), constructor None None ∅).
Proof.
  apply (proj1 (staging_errors (Sample.mysql [Sample.users]) Sample.stringify
                  (constructor None None ∅))).
  reflexivity.
Defined.

Lemma staging_twice_witness :
  let tables := [Sample.users; Sample.order_items] in
  exists w2, retrieveMysqlData (Sample.mysql tables) Sample.stringify (Sample.staged tables)
             = (Normal tt, w2) /\
             datafiles w2 = datafiles (Sample.staged tables).
Proof.
  intros tables.
  apply (staging_twice (Sample.mysql tables) Sample.stringify (Sample.discovered tables)).
  - intros T H. vm_compute in H. injection H as <-. by repeat constructor.
  - vm_compute. reflexivity.
Defined.

Lemma staging_blocked_by_subdirectory_witness :
  let m : gmap string node := <["archive" := Directory]> {["old.json" := File "[]"]} in
  let w := with_datafiles (Some m) (Sample.discovered [Sample.users]) in
  exists m', retrieveMysqlData (Sample.mysql [Sample.users]) Sample.stringify w
             = (Throw (FsError EEXIST EmptyString), with_datafiles (Some m') w) /\
             m' ⊆ m /\ m' !! "archive" = Some Directory.
Proof.
  intros m w.
  apply (staging_blocked_by_subdirectory (Sample.mysql [Sample.users]) Sample.stringify
           w ["users"] m "archive"); reflexivity.
Defined.

Lemma discover_then_stage_witness :
  let tables := [Sample.users; Sample.order_items] in
  let w := constructor (Some {["old.json" := File "[]"]}) None ∅ in
  exists w' m,
    (retrieveModels (Sample.mysql tables) ;;
     retrieveMysqlData (Sample.mysql tables) Sample.stringify) w = (Normal tt, w') /\
    models w' = Some ["users"; "order_items"] /\ datafiles w' = Some m /\
    staged_with (Sample.mysql tables) Sample.stringify ["users"; "order_items"] m.
Proof.
  intros tables w.
  apply (proj1 (discover_then_stage (Sample.mysql tables) Sample.stringify w)).
  - reflexivity.
  - by repeat constructor.
  - apply all_files_insert, all_files_empty.
  - intros t Ht. apply list_elem_of_In in Ht. simpl in Ht.
    destruct Ht as [<-|[<-|[]]]; eexists; reflexivity.
Defined.

Lemma generation_errors_witness :
  let w := Sample.staged [Sample.users] in
  let run := generateMongoSchemas (Sample.mysql []) Sample.datatypes w in
  (datafiles w = None /\ QueryError "ER_NO_SUCH_TABLE" = FsError ENOENT EmptyString /\ run.2 = w) \/
  (datafiles w = Some ∅ /\ QueryError "ER_NO_SUCH_TABLE" = Error "Empty directory!" /\ run.2 = w) \/
  (exists m f reason, datafiles w = Some m /\ is_Some (m !! f) /\
     query_describe (Sample.mysql []) ("describe " +:+ table_of f) = Rejected reason /\
     QueryError "ER_NO_SUCH_TABLE" = QueryError reason).
Proof.
  intros w run.
  apply (generation_errors (Sample.mysql []) Sample.datatypes w run.2
           (QueryError "ER_NO_SUCH_TABLE")).
  vm_compute. reflexivity.
Defined.

Lemma generation_fails_fast_witness :
  let w := Sample.staged [Sample.users; Sample.order_items] in
  exists w', generateMongoSchemas (Sample.mysql [Sample.order_items]) Sample.datatypes w
             = (Throw (QueryError "ER_NO_SUCH_TABLE"), w') /\
    Map_get "order_items.json" (modelschemas w') = Some "Orderitems" /\
    Map_get "users.json" (modelschemas w') = None.
Proof.
  intros w.
  destruct (generation_fails_fast (Sample.mysql [Sample.order_items]) Sample.datatypes w
              (default ∅ (datafiles w)) ["order_items.json"] [] "users.json" "ER_NO_SUCH_TABLE")
    as (w' & Hrun & Hin & Hout & _).
  - vm_compute. reflexivity.
  - vm_compute. reflexivity.
  - intros g ->%list_elem_of_singleton. by eexists.
  - reflexivity.
  - exact I.
  - exists w'. split; [exact Hrun|]. split.
    + apply (Hin "order_items.json"). by left.
    + rewrite (Hout "users.json"); [reflexivity|]. by intros ?%list_elem_of_singleton.
Defined.

Lemma generation_replaces_schemas_witness :
  let tables := [Sample.users; Sample.order_items] in
  let w := with_mongomodels (Some {["Old.ts" := File "const Old = new Schema({});"]})
             (Sample.staged tables) in
  exists w',
    generateMongoSchemas (Sample.mysql tables) Sample.datatypes w = (Normal tt, w') /\
    mongomodels w' = Some ∅ /\
    stream_path <$> streams w' = ["Orderitems.ts"; "Users.ts"] /\
    forall d, settles_on w' d ->
      exists mm, d = Some mm /\ mm !! "Old.ts" = None /\
        mm !! "Users.ts"
        = Some (File (schema_text "Users"
                        (modeldefinition_of Sample.datatypes
                           (Sample.table_columns Sample.users)))).
Proof.
  intros tables w.
  assert ((map_to_list (default ∅ (datafiles (Sample.staged tables)))).*1
          = ["order_items.json"; "users.json"]) as Hl by (vm_compute; reflexivity).
  assert (is_Some (default ∅ (datafiles (Sample.staged tables)) !! "users.json")) as Hu.
  { apply readdir_is_Some. rewrite Hl. right. left. }
  destruct (generation_replaces_schemas (Sample.mysql tables) Sample.datatypes w
              (default ∅ (datafiles (Sample.staged tables))))
    as (w' & Hrun & Hmm & Hpaths & _ & Hsettled).
  - vm_compute. reflexivity.
  - intros E. rewrite E, lookup_empty in Hu. destruct Hu as [x Hx]. discriminate Hx.
  - apply (sample_descriptions tables ["order_items.json"; "users.json"]);
      [exact Hl | vm_compute; reflexivity].
  - apply all_files_insert, all_files_empty.
  - vm_compute. reflexivity.
  - exists w'. split; [exact Hrun|]. split; [exact Hmm|]. split.
    + rewrite Hpaths, Hl. reflexivity.
    + intros d Hd. destruct (Hsettled d Hd) as (mm & Hmm' & _ & Hexact & Htext).
      exists mm. split; [exact Hmm'|]. split.
      * destruct (mm !! "Old.ts") eqn:E; [|reflexivity].
        destruct (proj1 (Hexact "Old.ts")) as (f & Hf & Heq); [rewrite E; eexists; reflexivity|].
        apply readdir_all in Hf. rewrite Hl in Hf. apply list_elem_of_In in Hf. simpl in Hf.
        destruct Hf as [<-|[<-|[]]]; discriminate Heq.
      * apply (Htext "users.json" (Sample.table_columns Sample.users) Hu eq_refl).
        intros g Hg Hname. apply readdir_all in Hg. rewrite Hl in Hg.
        apply list_elem_of_In in Hg. simpl in Hg.
        destruct Hg as [<-|[<-|[]]]; [discriminate Hname | reflexivity].
Defined.

Lemma dotted_table_name_witness :
  table_of "shop.orders.json" = "shop" /\
  generate (Sample.mysql [Sample.users]) Sample.datatypes "shop.orders.json"
    (Sample.staged [Sample.users])
  = (Throw (QueryError "ER_NO_SUCH_TABLE"), Sample.staged [Sample.users]).
Proof.
  destruct (dotted_table_name (Sample.mysql [Sample.users]) Sample.datatypes
              "shop" "orders" "ER_NO_SUCH_TABLE" (Sample.staged [Sample.users]))
    as [Ht Hg]; [reflexivity|].
  split; [exact Ht|]. apply Hg. reflexivity.
Defined.

Lemma loading_returns_witness :
  let tables := [Sample.users; Sample.order_items] in
  let w := Sample.generated tables in
  populateMongo (Sample.parse tables) w
  = (Normal tt,
     with_console (console w ++ (LogData <$> [Sample.table_rows Sample.order_items;
                                              Sample.table_rows Sample.users])) w).
Proof.
  intros tables w.
  apply (proj1 (loading_returns (Sample.parse tables) w)).
  vm_compute. by repeat constructor.
Defined.

Lemma loading_stops_at_first_failure_witness :
  let w := (Sample.two_runs [Sample.users] [Sample.order_items] (constructor None None ∅)).2 in
  populateMongo (Sample.parse [Sample.order_items]) w
  = (Throw (load_failure (datafiles w) "users.json"),
     with_console (console w ++ (LogData <$> [])) w).
Proof.
  intros w.
  apply (loading_stops_at_first_failure (Sample.parse [Sample.order_items]) w
           [] [("order_items.json", "Orderitems")] "users.json" "Users" []).
  - vm_compute. reflexivity.
  - constructor.
  - vm_compute. reflexivity.
Defined.

Lemma type_parameters_are_dropped_witness :
  datatype_of Sample.email = "varchar" /\
  datatype_of (mkColumn "name" "varchar" "NO" None) = "varchar" /\
  type_text Sample.datatypes Sample.email
  = type_text Sample.datatypes (mkColumn "name" "varchar" "NO" None).
Proof.
  apply (type_parameters_are_dropped Sample.datatypes "varchar" "255)"); reflexivity.
Defined.

Lemma pipeline_round_trip_witness :
  let tables := [Sample.users; Sample.order_items] in
  exists w' m vals,
    pipeline (Sample.mysql tables) Sample.stringify (Sample.parse tables) Sample.datatypes
      (constructor None None ∅) = (Normal tt, w') /\
    datafiles w' = Some m /\
    modelschemas w' = (fun f => (f, modelname_of (table_of f))) <$> (map_to_list m).*1 /\
    console w' = LogFound 2 :: (LogData <$> vals).
Proof.
  intros tables.
  destruct (pipeline_round_trip (Sample.mysql tables) Sample.stringify (Sample.parse tables)
              Sample.datatypes (constructor None None ∅) ["users"; "order_items"])
    as (w' & m & vals & Hrun & Hm & _ & Hms & Hcon & _).
  - reflexivity.
  - discriminate.
  - by repeat constructor.
  - intros t Ht. apply list_elem_of_In in Ht. simpl in Ht.
    destruct Ht as [<-|[<-|[]]]; reflexivity.
  - intros t Ht. apply list_elem_of_In in Ht. simpl in Ht.
    destruct Ht as [<-|[<-|[]]]; eexists; split; reflexivity.
  - intros t Ht. apply list_elem_of_In in Ht. simpl in Ht.
    destruct Ht as [<-|[<-|[]]]; eexists; reflexivity.
  - exact I.
  - exact I.
  - reflexivity.
  - exists w', m, vals. split; [exact Hrun|]. split; [exact Hm|]. split; [exact Hms|].
    exact Hcon.
Defined.

(** ** Generation twice in a row *)

Lemma Map_set_same (k v : string) (ms : list (string * string)) :
  Map_get k ms = Some v -> Map_set k v ms = ms.
Proof.
  induction ms as [|[k' v'] ms IH]; simpl; [done|].
  destruct (String.eqb_spec k' k) as [->|Hne].
  - by intros [= ->].
  - intros H. by rewrite IH.
Qed.

Lemma Map_set_all_same (name : string -> string) (l : list string)
    (ms : list (string * string)) :
  (forall f, f ∈ l -> Map_get f ms = Some (name f)) ->
  foldl (fun acc g => Map_set g (name g) acc) ms l = ms.
Proof.
  induction l as [|g l IH]; intros H; simpl; [done|].
  rewrite Map_set_same; [|apply H; by left].
  apply IH. intros f Hf. apply H. by right.
Qed.

Section GenerationTwice.

Variable database : Database.
Variable datatypes : string -> option string.

#[local] Abbreviation describe2 f := (query_describe database ("describe " +:+ table_of f)).
#[local] Abbreviation generate2 := (generate database datatypes).
#[local] Abbreviation generation2 := (generateMongoSchemas database datatypes).

(** X16. Generation twice in a row, against a database that answers the
    same, the second run starting once the streams of the first have
    finished. The first run starts without pending stream, among regular
    files, and returns. Then the second returns too, and leaves the state
    exactly as the first had left it at its return: the same mapping, entry
    for entry, the schema directory emptied again by the synchronous calls,
    and the same streams created on it, with the same chunks. *)
Theorem generation_twice (w w1 : World) (d : dir) :
  streams w = [] ->
  no_subdirectory (mongomodels w) ->
  generation2 w = (Normal tt, w1) ->
  settles_on w1 d ->
  generation2 (settled d w1) = (Normal tt, w1).
Proof.
  intros Hss Hno H1 Hd.
  destruct (datafiles w) as [m|] eqn:Hm;
    [|by rewrite generation_unfold, Hm in H1].
  destruct (generation_resolved _ _ _ _ m H1 Hm) as [Hne Hq].
  destruct (generation_normal_inv _ _ _ _ m H1 Hm) as [Hms1 Hdf1].
  destruct (generation_leaves _ _ _ _ m H1 Hm Hss Hno) as (Hmm1 & Hst1 & _).
  destruct (settles_on_files w1 ∅ d Hmm1 all_files_empty Hd) as (mm & -> & Hfiles & _).
  assert (datafiles (settled (Some mm) w1) = Some m) as Hdf2 by exact Hdf1.
  rewrite (generation_returns database datatypes (settled (Some mm) w1) m Hdf2 Hne Hq).
  rewrite (cleared_is_empty (settled (Some mm) w1) Hfiles).
  assert (foldl (fun acc g => Map_set g (modelname_of (table_of g)) acc)
            (modelschemas (settled (Some mm) w1)) (map_to_list m).*1
          = modelschemas w1) as ->.
  { change (modelschemas (settled (Some mm) w1)) with (modelschemas w1).
    apply (Map_set_all_same (fun g => modelname_of (table_of g))).
    intros g Hg. rewrite Hms1. apply (Map_set_all_get (fun g => modelname_of (table_of g))).
    by left. }
  change (streams (settled (Some mm) w1)) with (@nil stream).
  rewrite app_nil_l, <- Hst1, <- Hmm1. by destruct w1.
Qed.

End GenerationTwice.

Lemma generation_twice_witness :
  let tables := [Sample.users; Sample.order_items] in
  let w1 := Sample.generated tables in
  settles_on w1 (drains_to w1) /\
  generateMongoSchemas (Sample.mysql tables) Sample.datatypes (settled (drains_to w1) w1)
  = (Normal tt, w1).
Proof.
  intros tables w1.
  assert (settles_on w1 (drains_to w1)) as Hd.
  { apply (drains_to_written w1 ∅); [vm_compute; reflexivity | apply all_files_empty]. }
  split; [exact Hd|].
  apply (generation_twice (Sample.mysql tables) Sample.datatypes (Sample.staged tables)).
  - vm_compute. reflexivity.
  - exact I.
  - vm_compute. reflexivity.
  - exact Hd.
Defined.
